(** * Remote path completion and import-folder moves of macos-extensions

    A shallow embedding of the two Automator workflow scripts

    - [Copy to Server.workflow/Contents/copy_to_server.py]: the remote
      directory completion of [ServerCopyDialog] ([fetch_and_filter_paths],
      [fetch_remote_paths], [update_and_show_dropdown],
      [update_destination_values], [apply_home_replacement_to_paths], ...);
    - [Add to Apple Music.workflow/Contents/add_to_music.py]: the final stage
      of [process_audio_file], which moves a tagged file into the import
      directory under a name that is still free.

    A Python [str] is a sequence of Unicode code points and is modelled as a
    list of [N].  The dialog object is an explicit record that every
    operation receives and returns; [subprocess.run] and [os.path.exists]
    are oracles of an environment record; a callback handed to
    [root.after(0, ...)] is returned as data and applied by [deliver]. *)

From Stdlib Require Import ZArith NArith Ascii String List Lia DecimalNat.
From stdpp Require Import base list gmap strings.

Local Open Scope N_scope.

(** ** Python strings *)

Module PyStr.

Abbreviation str := (list N).

(** An ASCII literal of the source, as code points. *)
Definition lit (s : string) : str := N_of_ascii <$> list_ascii_of_string s.

Definition sep : N := 47.       (* '/' *)
Definition tilde : N := 126.    (* '~' *)
Definition newline : N := 10.   (* '\n' *)
Definition extsep : N := 46.    (* '.' *)

(** [str.isspace] on one code point: the table behind [str.strip()]. *)
Definition isspace (c : N) : bool :=
  ((0x09 <=? c) && (c <=? 0x0D)) || ((0x1C <=? c) && (c <=? 0x1F))
  || (c =? 0x20) || (c =? 0x85) || (c =? 0xA0) || (c =? 0x1680)
  || ((0x2000 <=? c) && (c <=? 0x200A)) || (c =? 0x2028) || (c =? 0x2029)
  || (c =? 0x202F) || (c =? 0x205F) || (c =? 0x3000).

(** Truth value of a string: [if s:] holds for the non-empty ones. *)
Definition truthy (s : str) : bool :=
  match s with [] => false | _ :: _ => true end.

(** Truth value of an attribute that is [None] or a string. *)
Definition truthy_opt (o : option str) : bool :=
  match o with Some s => truthy s | None => false end.

Definition mem (c : N) (chars : str) : bool := existsb (N.eqb c) chars.

Fixpoint lstrip_by (P : N -> bool) (s : str) : str :=
  match s with
  | [] => []
  | c :: s' => if P c then lstrip_by P s' else s
  end.

Fixpoint rstrip_by (P : N -> bool) (s : str) : str :=
  match s with
  | [] => []
  | c :: s' =>
      match rstrip_by P s' with
      | [] => if P c then [] else [c]
      | r => c :: r
      end
  end.

(** [s.strip()] *)
Definition strip (s : str) : str := rstrip_by isspace (lstrip_by isspace s).

(** [s.rstrip(chars)] *)
Definition rstrip (s chars : str) : str := rstrip_by (fun c => mem c chars) s.

(** [s.startswith(prefix)] *)
Fixpoint startswith (s prefix : str) : bool :=
  match prefix, s with
  | [], _ => true
  | _ :: _, [] => false
  | a :: prefix', b :: s' => (a =? b) && startswith s' prefix'
  end.

(** [s.endswith(suffix)] *)
Definition endswith (s suffix : str) : bool :=
  startswith (reverse s) (reverse suffix).

(** [s.split(c)] for a one-character separator. *)
Fixpoint split (s : str) (c : N) : list str :=
  match s with
  | [] => [[]]
  | x :: s' =>
      if x =? c then [] :: split s' c
      else match split s' c with
           | l :: ls => (x :: l) :: ls
           | [] => [[x]]
           end
  end.

(** [s.rfind(c)] for a one-character needle: the highest index, or -1. *)
Fixpoint rfind_from (i : Z) (s : str) (c : N) : Z :=
  match s with
  | [] => (-1)%Z
  | x :: s' =>
      let r := rfind_from (i + 1)%Z s' c in
      if (0 <=? r)%Z then r else if x =? c then i else (-1)%Z
  end.

Definition rfind (s : str) (c : N) : Z := rfind_from 0%Z s c.

(** [s.lower()] on the ASCII letters, which is all the extension test of
    [process_audio_file] depends on. *)
Definition lower_char (c : N) : N :=
  if (0x41 <=? c) && (c <=? 0x5A) then c + 32 else c.

Definition lower (s : str) : str := lower_char <$> s.

Definition digit (d : N) : N := 48 + d.

Fixpoint uint_str (d : Decimal.uint) : str :=
  match d with
  | Decimal.Nil => []
  | Decimal.D0 d => digit 0 :: uint_str d
  | Decimal.D1 d => digit 1 :: uint_str d
  | Decimal.D2 d => digit 2 :: uint_str d
  | Decimal.D3 d => digit 3 :: uint_str d
  | Decimal.D4 d => digit 4 :: uint_str d
  | Decimal.D5 d => digit 5 :: uint_str d
  | Decimal.D6 d => digit 6 :: uint_str d
  | Decimal.D7 d => digit 7 :: uint_str d
  | Decimal.D8 d => digit 8 :: uint_str d
  | Decimal.D9 d => digit 9 :: uint_str d
  end.

(** [f"{n}"] for a non-negative integer. *)
Definition decimal (n : nat) : str := uint_str (Nat.to_uint n).

(** Number of separators a string ends with. *)
Fixpoint leading_run (c : N) (s : str) : nat :=
  match s with
  | x :: s' => if x =? c then S (leading_run c s') else O
  | [] => O
  end.

Definition trailing_seps (s : str) : nat := leading_run sep (reverse s).

End PyStr.

Export PyStr.

(** ** copy_to_server.py: the completion state of [ServerCopyDialog] *)

Module CopyToServer.

(** One entry of [SSHConfigParser.hosts]: a dict with the keys ['name'],
    ['hostname'], ['user'] and ['identity_file'], the last three [None]
    until the config file sets them. *)
Record host := Host {
  name : str;
  hostname : option str;
  user : option str;
  identity_file : option str
}.

(** The attributes of the dialog that the completion reads and writes.
    [dest_var] is the text of the destination field and [dest_combo_values]
    the option list [self.dest_combo['values']]. *)
Record dialog := Dialog {
  selected_host : option host;
  remote_home : option str;
  destination_paths : list str;
  dest_var : str;
  dest_combo_values : list str
}.

(** [ServerCopyDialog.__init__] before a server is selected. *)
Definition initial_dialog : dialog :=
  Dialog None None [] [] [].

Definition set_remote_home (st : dialog) (h : option str) : dialog :=
  Dialog (selected_host st) h (destination_paths st) (dest_var st)
         (dest_combo_values st).

Definition set_paths (st : dialog) (paths : list str) : dialog :=
  Dialog (selected_host st) (remote_home st) paths (dest_var st) paths.

Definition set_dest_var (st : dialog) (text : str) : dialog :=
  Dialog (selected_host st) (remote_home st) (destination_paths st) text
         (dest_combo_values st).

(** Exceptions a call of [subprocess.run] can end with.  The first three
    derive from [Exception]; [KeyboardInterrupt] derives from
    [BaseException] only. *)
Inductive py_exception :=
| TimeoutExpired
| FileNotFoundError
| UnicodeDecodeError
| KeyboardInterrupt.

Definition is_Exception (e : py_exception) : bool :=
  match e with
  | KeyboardInterrupt => false
  | _ => true
  end.

(** What [subprocess.run(ssh_cmd, capture_output=True, text=True,
    timeout=...)] comes back with. *)
Inductive run_result :=
| CompletedProcess (returncode : Z) (stdout : str)
| Raises (e : py_exception).

(** The outside world: [os.path.exists] on the local machine and the remote
    command-execution channel. *)
Record env := Env {
  path_exists : str -> bool;
  subprocess_run : list str -> run_result
}.

(** A call queued on the interactive thread with [self.root.after(0, ...)]. *)
Inductive after_call :=
| call_update_and_show_dropdown (paths : list str)
| call_update_destination_values (paths : list str)
| call_apply_home_replacement_to_paths.

(** How a background task ends: it returns, having queued at most one call
    and printed at most one failure message, or an exception leaves it. *)
Inductive outcome :=
| Returned (queued : option after_call) (printed : option py_exception)
| Uncaught (e : py_exception).

(** The candidate sequence a task hands to the interactive thread. *)
Definition candidates (o : outcome) : list str :=
  match o with
  | Returned (Some (call_update_and_show_dropdown paths)) _ => paths
  | Returned (Some (call_update_destination_values paths)) _ => paths
  | _ => []
  end.

(** [ssh_cmd] up to and including the target, as the three fetch functions
    build it. *)
Definition ssh_prefix (E : env) (h : host) : list str :=
  let hostname :=
    match hostname h with
    | Some x => if truthy x then x else name h
    | None => name h
    end in
  [lit "ssh"]
  ++ match identity_file h with
     | Some f => if truthy f && path_exists E f then [lit "-i"; f] else []
     | None => []
     end
  ++ [lit "-o"; lit "BatchMode=yes"; lit "-o"; lit "ConnectTimeout=5";
      lit "-o"; lit "StrictHostKeyChecking=no"]
  ++ [match user h with
      | Some u => if truthy u then u ++ lit "@" ++ hostname else hostname
      | None => hostname
      end].

(** [fetch_remote_home] *)
Definition fetch_remote_home (E : env) (st : dialog) : option str :=
  match selected_host st with
  | None => None
  | Some h =>
      match subprocess_run E (ssh_prefix E h ++ [lit "echo $HOME"]) with
      | CompletedProcess returncode stdout =>
          if (returncode =? 0)%Z && truthy (strip stdout)
          then Some (strip stdout) else None
      | Raises e => None
      end
  end.

(** The remote command of [fetch_and_filter_paths]. *)
Definition filter_cmd (dir_path prefix : str) : str :=
  if truthy prefix
  then lit "ls -1d " ++ dir_path ++ prefix ++ lit "*/ 2>/dev/null | head -30"
  else lit "ls -1d " ++ dir_path ++ lit "*/ 2>/dev/null | head -30".

(** The remote command of [fetch_remote_paths]. *)
Definition remote_cmd (remote_path : str) : str :=
  lit "ls -1dp " ++ remote_path ++ lit "*/ 2>/dev/null | head -20".

(** [ssh_cmd] as [fetch_and_filter_paths] passes it to [subprocess.run]. *)
Definition filter_ssh_cmd (E : env) (h : host) (dir_path prefix : str)
    : list str :=
  ssh_prefix E h ++ [filter_cmd dir_path prefix].

(** [ssh_cmd] as [fetch_remote_paths] passes it to [subprocess.run]. *)
Definition remote_ssh_cmd (E : env) (h : host) (remote_path : str) : list str :=
  ssh_prefix E h ++ [remote_cmd remote_path].

(** Body of the loop of [fetch_and_filter_paths] over the listing lines:
    [None] when the line adds nothing to [paths]. *)
Definition filter_line (using_tilde : bool) (remote_home : option str)
    (p : str) : option str :=
  let p := rstrip (strip p) (lit "/") in
  let p :=
    if using_tilde && truthy p && truthy_opt remote_home then
      match remote_home with
      | Some home => if startswith p home
                     then lit "~" ++ drop (length home) p else p
      | None => p
      end
    else p in
  if truthy p then Some (p ++ lit "/") else None.

(** Body of the loop of [fetch_remote_paths], with its single condition. *)
Definition remote_line (using_tilde : bool) (remote_home : option str)
    (p : str) : option str :=
  let p := rstrip (strip p) (lit "/") in
  let p :=
    match remote_home with
    | Some home =>
        if using_tilde && truthy p && truthy home && startswith p home
        then lit "~" ++ drop (length home) p else p
    | None => p
    end in
  if truthy p then Some (p ++ lit "/") else None.

(** [fetch_and_filter_paths], run by a background thread on the dialog as it
    is at that moment. *)
Definition fetch_and_filter_paths (E : env) (st : dialog)
    (dir_path prefix : str) : outcome :=
  match selected_host st with
  | None => Returned None None
  | Some h =>
      let using_tilde := startswith (dest_var st) (lit "~/") in
      let ssh_cmd := filter_ssh_cmd E h dir_path prefix in
      match subprocess_run E ssh_cmd with
      | Raises e => if is_Exception e then Returned None (Some e) else Uncaught e
      | CompletedProcess returncode stdout =>
          if (returncode =? 0)%Z && truthy (strip stdout) then
            let paths :=
              omap (filter_line using_tilde (remote_home st))
                   (split (strip stdout) newline) in
            match paths with
            | [] => Returned None None
            | _ :: _ => Returned (Some (call_update_and_show_dropdown paths)) None
            end
          else Returned None None
      end
  end.

(** [fetch_remote_paths] *)
Definition fetch_remote_paths (E : env) (st : dialog) (remote_path : str)
    : outcome :=
  match selected_host st with
  | None => Returned None None
  | Some h =>
      let using_tilde := startswith remote_path (lit "~/") in
      let ssh_cmd := remote_ssh_cmd E h remote_path in
      match subprocess_run E ssh_cmd with
      | Raises e => if is_Exception e then Returned None (Some e) else Uncaught e
      | CompletedProcess returncode stdout =>
          if (returncode =? 0)%Z && truthy (strip stdout) then
            let paths :=
              omap (remote_line using_tilde (remote_home st))
                   (split (strip stdout) newline) in
            Returned (Some (call_update_destination_values paths)) None
          else Returned None None
      end
  end.

(** [update_and_show_dropdown]; the cursor index it saves and restores is
    not part of the state. *)
Definition update_and_show_dropdown (st : dialog) (paths : list str) : dialog :=
  match paths with
  | [] => st
  | _ :: _ => set_paths st paths
  end.

(** [update_destination_values] *)
Definition update_destination_values (st : dialog) (paths : list str) : dialog :=
  match paths with
  | [] => st
  | _ :: _ => set_paths st paths
  end.

(** Body of the loop of [apply_home_replacement_to_paths]. *)
Definition home_replacement (home p : str) : str :=
  let p := rstrip p (lit "/") in
  if startswith p (lit "~") then p ++ lit "/"
  else (if startswith p home then lit "~" ++ drop (length home) p else p)
       ++ lit "/".

(** [apply_home_replacement_to_paths] *)
Definition apply_home_replacement_to_paths (st : dialog) : dialog :=
  match remote_home st, destination_paths st with
  | Some home, _ :: _ =>
      if truthy home then
        let updated_paths := home_replacement home <$> destination_paths st in
        let st := set_paths st updated_paths in
        let current := dest_var st in
        if truthy current && negb (startswith current (lit "~"))
           && startswith current home
        then set_dest_var st (lit "~" ++ drop (length home) current)
        else st
      else st
  | _, _ => st
  end.

(** The interactive thread running a queued call. *)
Definition deliver (c : after_call) (st : dialog) : dialog :=
  match c with
  | call_update_and_show_dropdown paths => update_and_show_dropdown st paths
  | call_update_destination_values paths => update_destination_values st paths
  | call_apply_home_replacement_to_paths => apply_home_replacement_to_paths st
  end.

(** The dialog after a background task ended with [o]. *)
Definition settle (o : outcome) (st : dialog) : dialog :=
  match o with
  | Returned (Some c) _ => deliver c st
  | _ => st
  end.

(** [fetch_and_store_home]: the assignment happens on the background thread,
    the replacement is queued. *)
Definition fetch_and_store_home (E : env) (st : dialog)
    : dialog * option after_call :=
  let st := set_remote_home st (fetch_remote_home E st) in
  (st,
   if truthy_opt (remote_home st) && bool_decide (destination_paths st <> [])
   then Some call_apply_home_replacement_to_paths else None).

(** [load_destination_suggestions]: the state it leaves and the path whose
    listing it starts. *)
Definition load_destination_suggestions (st : dialog) : dialog * option str :=
  match selected_host st with
  | None => (st, None)
  | Some _ => (set_dest_var (set_paths st [lit "~/"]) (lit "~/"), Some (lit "~/"))
  end.

(** A listing that gives the completer nothing: the call raised one of the
    exceptions of [Exception], ended with a non-zero exit status, or printed
    only white space. *)
Definition listing_failed (r : run_result) : bool :=
  match r with
  | Raises e => is_Exception e
  | CompletedProcess returncode stdout =>
      negb (returncode =? 0)%Z || negb (truthy (strip stdout))
  end.

(** A candidate as the data model wants it: not empty, ending with the
    separator. *)
Definition well_formed (p : str) : Prop := p <> [] /\ last p = Some sep.

(** The listing line with white space and trailing separators removed. *)
Definition bare (line : str) : str := rstrip (strip line) (lit "/").

(** The line is rewritten exactly when all four conditions of the source
    hold. *)
Definition rewrites (using_tilde : bool) (remote_home : option str)
    (line : str) : bool :=
  match remote_home with
  | Some home => using_tilde && truthy (bare line) && truthy home
                 && startswith (bare line) home
  | None => false
  end.

(** What a line becomes before the separator is appended again. *)
Definition normal_form (using_tilde : bool) (remote_home : option str)
    (line : str) : str :=
  if rewrites using_tilde remote_home line
  then lit "~" ++ drop (length (default [] remote_home)) (bare line)
  else bare line.

(** Sample data: a host of the SSH configuration, a dialog on it, the output
    of [ls -1] for some paths, and a channel that answers every command with
    the same exit status and output. *)
Definition sample_host : host := Host (lit "server") None None None.

Definition sample_dialog (remote_home : option str) (text : str)
    (paths : list str) : dialog :=
  Dialog (Some sample_host) remote_home paths text paths.

Definition unlines (paths : list str) : str :=
  concat ((fun p => p ++ [newline]) <$> paths).

Definition answering (returncode : Z) (stdout : str) : env :=
  Env (fun _ => false) (fun _ => CompletedProcess returncode stdout).

Definition raising (e : py_exception) : env :=
  Env (fun _ => false) (fun _ => Raises e).

End CopyToServer.

Export CopyToServer.

(** ** add_to_music.py: moving a file into the import directory *)

Module AddToMusic.

(** The local file system: what lives at each path.  Paths are compared as
    strings, so they are taken in one canonical spelling. *)
Inductive entry :=
| File (content : list N)
| Directory.

Abbreviation filesystem := (gmap (list N) entry).

(** [os.path.exists] *)
Definition os_path_exists (fs : filesystem) (p : str) : bool :=
  bool_decide (is_Some (fs !! p)).

(** [os.path.isfile] *)
Definition os_path_isfile (fs : filesystem) (p : str) : bool :=
  match fs !! p with
  | Some (File _) => true
  | _ => false
  end.

(** [os.path.basename] of [posixpath]: [p[p.rfind('/') + 1:]]. *)
Definition os_path_basename (p : str) : str :=
  drop (Z.to_nat (rfind p sep + 1)) p.

(** [os.path.splitext] of [posixpath]: the extension starts at the last dot
    of the last component, unless only dots precede it there. *)
Definition os_path_splitext (p : str) : str * str :=
  let sepIndex := rfind p sep in
  let dotIndex := rfind p extsep in
  if (dotIndex >? sepIndex)%Z then
    let leading :=
      take (Z.to_nat (dotIndex - (sepIndex + 1)))
           (drop (Z.to_nat (sepIndex + 1)) p) in
    if existsb (fun c => negb (c =? extsep)) leading
    then (take (Z.to_nat dotIndex) p, drop (Z.to_nat dotIndex) p)
    else (p, [])
  else (p, []).

(** [os.path.join] of [posixpath] with two arguments. *)
Definition os_path_join (a b : str) : str :=
  if startswith b (lit "/") then b
  else if negb (truthy a) || endswith a (lit "/") then a ++ b
  else a ++ lit "/" ++ b.

(** [MUSIC_IMPORT_DIR]: [os.path.expanduser] puts the home directory of the
    user, without its trailing separators, in place of the tilde. *)
Definition MUSIC_IMPORT_DIR (userhome : str) : str :=
  rstrip userhome (lit "/")
  ++ lit "/Music/Music/Media.localized/Automatically Add to Music.localized".

(** The directories [os.makedirs] walks through: every proper prefix of the
    path that ends before a separator, shortest first, then the path. *)
Definition lineage (p : str) : list str :=
  ((fun i => take i p)
     <$> filter (fun i => (0 < i)%nat /\ p !! i = Some sep) (seq 0 (length p)))
  ++ [p].

Definition mkdir_if_absent (d : str) (fs : filesystem) : filesystem :=
  match fs !! d with
  | None => <[d := Directory]> fs
  | Some _ => fs
  end.

(** [os.makedirs(name, exist_ok=True)]: [None] when a file is in the way and
    the call raises. *)
Definition os_makedirs (name : str) (fs : filesystem) : option filesystem :=
  if existsb (os_path_isfile fs) (lineage name) then None
  else Some (foldr mkdir_if_absent fs (lineage name)).

(** [shutil.move(src, dst)] towards a path where nothing exists yet, the
    only way [process_audio_file] calls it. *)
Definition shutil_move (src dst : str) (fs : filesystem) : filesystem :=
  match fs !! src with
  | Some e => <[dst := e]> (delete src fs)
  | None => fs
  end.

(** [f"{base}_{counter}{ext}"] *)
Definition numbered (base : str) (counter : nat) (ext : str) : str :=
  base ++ lit "_" ++ decimal counter ++ ext.

(** The loop [while os.path.exists(destination)], entered with the values of
    [destination] and [counter]; [fuel] bounds the number of tests. *)
Fixpoint while_exists (fuel : nat) (fs : filesystem) (dir base ext : str)
    (destination : str) (counter : nat) : option str :=
  match fuel with
  | O => None
  | S fuel =>
      if os_path_exists fs destination
      then while_exists fuel fs dir base ext
             (os_path_join dir (numbered base counter ext)) (S counter)
      else Some destination
  end.

(** "Handle duplicate filenames": the destination the file is moved to. *)
Definition unique_destination (fuel : nat) (fs : filesystem)
    (dir filename : str) : option str :=
  let destination := os_path_join dir filename in
  if os_path_exists fs destination then
    let '(base, ext) := os_path_splitext filename in
    while_exists fuel fs dir base ext destination 1
  else Some destination.

(** What the world answers while one file is processed: whether the user
    confirms the dialog, what tagging does to the bytes of the file, and
    whether the final move raises. *)
Record answers := Answers {
  user_confirmed : bool;
  retag : list N -> list N;
  move_raises : bool
}.

(** How [process_audio_file] ends. *)
Inductive result :=
| Finished (ok : bool) (fs : filesystem)
| MakedirsRaised
| OutOfFuel.

(** The file system in which the destination is chosen: the file is tagged
    and the import directory exists. *)
Definition before_move (userhome : str) (A : answers) (fs : filesystem)
    (file_path : str) (content : list N) : option filesystem :=
  os_makedirs (MUSIC_IMPORT_DIR userhome)
              (<[file_path := File (retag A content)]> fs).

(** [process_audio_file]; the fingerprint and metadata lookups only feed the
    dialog and the tags, which [answers] stands for. *)
Definition process_audio_file (userhome : str) (A : answers) (fuel : nat)
    (fs : filesystem) (file_path : str) : result :=
  match fs !! file_path with
  | Some (File content) =>
      let file_ext := lower (snd (os_path_splitext file_path)) in
      if negb (bool_decide (file_ext ∈ [lit ".mp3"; lit ".m4a"]))
      then Finished false fs
      else
        let filename := os_path_basename file_path in
        if negb (user_confirmed A) then Finished false fs
        else
          match before_move userhome A fs file_path content with
          | None => MakedirsRaised
          | Some fs =>
              match unique_destination fuel fs (MUSIC_IMPORT_DIR userhome)
                      filename with
              | None => OutOfFuel
              | Some destination =>
                  if move_raises A then Finished false fs
                  else Finished true (shutil_move file_path destination fs)
              end
          end
  | _ => Finished false fs
  end.

(** Sample data: a user whose import directory already holds "s.mp3" and
    "s_1.mp3", a file of that name elsewhere, and a run in which the user
    confirms and nothing goes wrong. *)
Definition sample_userhome : str := lit "/Users/a".

Definition sample_files : filesystem :=
  {[ lit "/tmp/s.mp3" := File [1; 2];
     os_path_join (MUSIC_IMPORT_DIR sample_userhome) (lit "s.mp3") := File [9];
     os_path_join (MUSIC_IMPORT_DIR sample_userhome) (lit "s_1.mp3") := File [8] ]}.

Definition sample_answers : answers := Answers true (fun content => 0 :: content) false.

Definition sample_files_before_move : filesystem :=
  foldr mkdir_if_absent (<[lit "/tmp/s.mp3" := File [0; 1; 2]]> sample_files)
        (lineage (MUSIC_IMPORT_DIR sample_userhome)).

End AddToMusic.

Export AddToMusic.

(** ** Further string primitives *)

Module PyText.

Definition dquote : N := 34.    (* the double quote *)
Definition squote : N := 39.    (* the single quote *)

(** [s.find(sub)]: the lowest index at which [sub] starts. *)
Fixpoint find_sub (s sub : str) : option nat :=
  if startswith s sub then Some O
  else match s with
       | [] => None
       | _ :: s' => S <$> find_sub s' sub
       end.

(** [sub in s] *)
Definition contains (s sub : str) : bool :=
  match find_sub s sub with Some _ => true | None => false end.

(** [s.split(sep, 1)[1]]: what follows the first [sep]; [None] stands for
    the [IndexError] of a string without [sep]. *)
Definition after_first (s sep : str) : option str :=
  (fun i => drop (i + length sep) s) <$> find_sub s sep.

(** [s[1:-1]] *)
Definition inner (s : str) : str := take (length s - 2) (drop 1 s).

(** [s.find(c)] for one character. *)
Fixpoint find_char (s : str) (c : N) : option nat :=
  match s with
  | [] => None
  | x :: s' => if x =? c then Some O else S <$> find_char s' c
  end.

(** [s.find(c, start)] *)
Definition find_char_from (s : str) (c : N) (start : nat) : option nat :=
  (fun k => (start + k)%nat) <$> find_char (drop start s) c.

(** [sep.join(parts)] *)
Fixpoint join (sep : str) (parts : list str) : str :=
  match parts with
  | [] => []
  | [p] => p
  | p :: rest => p ++ sep ++ join sep rest
  end.

End PyText.

Export PyText.

(** ** copy_to_server.py: [SSHConfigParser] *)

Module SshConfig.

(** The password database and the environment as [os.path.expanduser] sees
    them: the home directory of the current user ([HOME], or the entry of
    the user id; [None] when neither is there) and the home directories by
    user name. *)
Record users := Users {
  own_home : option str;
  getpwnam : str -> option str
}.

(** [os.path.expanduser] of [posixpath]. *)
Definition os_path_expanduser (U : users) (path : str) : str :=
  if negb (startswith path (lit "~")) then path
  else
    let i := default (length path) (find_char_from path sep 1) in
    let userhome :=
      if (i =? 1)%nat then own_home U
      else getpwnam U (take (i - 1) (drop 1 path)) in
    match userhome with
    | None => path
    | Some userhome =>
        let expanded := rstrip userhome (lit "/") ++ drop i path in
        if truthy expanded then expanded else lit "/"
    end.

(** The quotes around a host name are removed. *)
Definition unquote (host_name : str) : str :=
  if (startswith host_name [dquote] && endswith host_name [dquote])
     || (startswith host_name [squote] && endswith host_name [squote])
  then inner host_name else host_name.

Definition set_hostname (h : host) (v : str) : host :=
  Host (name h) (Some v) (user h) (identity_file h).

Definition set_user (h : host) (v : str) : host :=
  Host (name h) (hostname h) (Some v) (identity_file h).

Definition set_identity_file (h : host) (v : str) : host :=
  Host (name h) (hostname h) (user h) (Some v).

(** [self.hosts.append(current_host)] under [if current_host:]. *)
Definition flush (hosts : list host) (current_host : option host) : list host :=
  match current_host with
  | Some h => hosts ++ [h]
  | None => hosts
  end.

(** One turn of the loop of [parse] over the lines of the file, on
    [self.hosts] and [current_host]; [None] stands for an [IndexError]. *)
Definition parse_line (U : users) (state : list host * option host)
    (line : str) : option (list host * option host) :=
  let '(hosts, current_host) := state in
  let line := strip line in
  if negb (truthy line) || startswith line (lit "#") then Some state
  else if startswith line (lit "Host ") then
    let hosts := flush hosts current_host in
    host_name ← after_first line (lit "Host ");
    let host_name := unquote (strip host_name) in
    if negb (mem 42 host_name) && negb (mem 63 host_name)
    then Some (hosts, Some (Host host_name None None None))
    else Some (hosts, None)
  else
    match current_host with
    | Some h =>
        if startswith line (lit "HostName ") then
          v ← after_first line (lit "HostName ");
          Some (hosts, Some (set_hostname h (strip v)))
        else if startswith line (lit "User ") then
          v ← after_first line (lit "User ");
          Some (hosts, Some (set_user h (strip v)))
        else if startswith line (lit "IdentityFile ") then
          v ← after_first line (lit "IdentityFile ");
          Some (hosts, Some (set_identity_file h (os_path_expanduser U (strip v))))
        else Some state
    | None => Some state
    end.

Fixpoint parse_lines (U : users) (state : list host * option host)
    (lines : list str) : option (list host * option host) :=
  match lines with
  | [] => Some state
  | line :: lines => state ← parse_line U state line; parse_lines U state lines
  end.

(** [SSHConfigParser.parse] on a parser whose [self.hosts] is [hosts]. The
    configuration file is absent ([None]) or gives its lines; the result is
    the returned list and [self.hosts] afterwards. *)
Definition parse (U : users) (config : option (list str)) (hosts : list host)
    : option (list host * list host) :=
  match config with
  | None => Some ([], hosts)
  | Some lines =>
      '(hosts, current_host) ← parse_lines U (hosts, None) lines;
      Some (flush hosts current_host, flush hosts current_host)
  end.

(** The name a line declares: that of a [Host] line without wildcard. *)
Definition declared_name (line : str) : option str :=
  let line := strip line in
  if truthy line && negb (startswith line (lit "#"))
     && startswith line (lit "Host ")
  then
    let host_name := unquote (strip (drop 5 line)) in
    if negb (mem 42 host_name) && negb (mem 63 host_name)
    then Some host_name else None
  else None.

(** The value a line gives to the directive [key], a keyword with its
    trailing blank. *)
Definition directive (key line : str) : option str :=
  let line := strip line in
  if truthy line && negb (startswith line (lit "#")) && startswith line key
  then Some (strip (drop (length key) line)) else None.

(** The last of the values, or the old one when there is none. *)
Definition latest (old : option str) (values : list str) : option str :=
  match last values with
  | Some v => Some v
  | None => old
  end.

End SshConfig.

Export SshConfig.

(** ** copy_to_server.py: the events of the dialog *)

Module DialogEvents.

(** The keys [on_dest_typing] ignores. *)
Definition ignored_keysyms : list str :=
  [lit "Shift_L"; lit "Shift_R"; lit "Control_L"; lit "Control_R";
   lit "Alt_L"; lit "Alt_R"; lit "Meta_L"; lit "Meta_R"; lit "Super_L";
   lit "Super_R"; lit "Caps_Lock"; lit "Escape"; lit "Return"; lit "Tab"].

(** [on_dest_typing]: the arguments [(dir_path, prefix)] of the
    [fetch_and_filter_paths] thread it starts, if it starts one. *)
Definition on_dest_typing (st : dialog) (keysym : str) : option (str * str) :=
  let current_text := dest_var st in
  if bool_decide (keysym ∈ ignored_keysyms) then None
  else if truthy current_text then
    if mem sep current_text then
      let last_slash := rfind current_text sep in
      Some (take (Z.to_nat (last_slash + 1)) current_text,
            drop (Z.to_nat (last_slash + 1)) current_text)
    else Some (lit "~/", current_text)
  else None.

(** [on_dest_selected]: the dialog afterwards and the path whose
    [fetch_remote_paths] thread it starts, if it starts one. *)
Definition on_dest_selected (st : dialog) : dialog * option str :=
  let selected_path := dest_var st in
  if truthy selected_path then
    if negb (endswith selected_path (lit "/")) then
      let selected_path := selected_path ++ lit "/" in
      (set_dest_var st selected_path, Some selected_path)
    else (st, Some selected_path)
  else (st, None).

(** The dialog with the widgets around the completion: the hosts offered,
    the text of the server combobox, whether the password row is packed, and
    the number of files to copy. *)
Record window := Window {
  completion : dialog;
  hosts_offered : list host;
  server_var : str;
  password_visible : bool;
  file_count : nat
}.

(** [identity_file and os.path.exists(identity_file)] *)
Definition identity_usable (exists_ : str -> bool) (h : host) : bool :=
  match identity_file h with
  | Some f => truthy f && exists_ f
  | None => false
  end.

(** [next((h for h in self.hosts if h['name'] == selected_name), None)] *)
Fixpoint find_host (hosts : list host) (selected_name : str) : option host :=
  match hosts with
  | [] => None
  | h :: hosts =>
      if bool_decide (name h = selected_name) then Some h
      else find_host hosts selected_name
  end.

(** A background thread the interactive thread starts. *)
Inductive thread :=
| thread_fetch_and_store_home
| thread_fetch_remote_paths (remote_path : str)
| thread_fetch_and_filter_paths (dir_path prefix : str).

Definition set_selected_host (st : dialog) (h : option host) : dialog :=
  Dialog h (remote_home st) (destination_paths st) (dest_var st)
         (dest_combo_values st).

(** [on_server_selected]: the window afterwards and the threads started, in
    their order. *)
Definition on_server_selected (E : env) (w : window) : window * list thread :=
  let st := set_selected_host (completion w)
              (find_host (hosts_offered w) (server_var w)) in
  match selected_host st with
  | Some h =>
      let needs_password := negb (identity_usable (path_exists E) h) in
      let visible :=
        if needs_password && negb (password_visible w) then true
        else if negb needs_password && password_visible w then false
        else password_visible w in
      let '(st, listed) := load_destination_suggestions st in
      (Window st (hosts_offered w) (server_var w) visible (file_count w),
       thread_fetch_and_store_home
         :: match listed with
            | Some remote_path => [thread_fetch_remote_paths remote_path]
            | None => []
            end)
  | None =>
      (Window st (hosts_offered w) (server_var w) (password_visible w)
              (file_count w), [])
  end.

(** The height [update_window_size] asks for. *)
Definition window_height (w : window) : nat :=
  let source_lines := Nat.min 3 (Nat.max 1 (file_count w)) in
  let base_height := (230 + source_lines * 17)%nat in
  let base_height := (base_height + 16)%nat in
  let base_height := (base_height + 20)%nat in
  let base_height := (base_height + 25)%nat in
  if password_visible w then (base_height + 40)%nat else base_height.

(** The offset [update_window_size] centres the window with, along one
    axis: [(screen // 2) - (size // 2)]. *)
Definition centered (screen size : Z) : Z := (screen / 2 - size / 2)%Z.

(** What [apply_home_replacement_to_paths] makes of the text of the
    destination field. *)
Definition home_replaced_text (home current : str) : str :=
  if truthy current && negb (startswith current (lit "~"))
     && startswith current home
  then lit "~" ++ drop (length home) current else current.

End DialogEvents.

Export DialogEvents.

(** ** copy_to_server.py: [copy_files_to_server] *)

Module ScpCopy.

(** What [ServerCopyDialog.copy] stores in [self.result]. *)
Record config := Config {
  cfg_host : host;
  cfg_destination : str;
  cfg_password : option str;
  cfg_create_destination : bool
}.

(** How one call of [subprocess.run] ends: the process exits, or the call
    raises [e], whose [str(e)] is [message]. *)
Inductive proc :=
| Exited (returncode : Z) (stderr : str)
| Failed (e : py_exception) (message : str).

(** The local machine: which files exist, and what running a command gives
    after the commands already run. *)
Record shell := Shell {
  file_exists : str -> bool;
  run : list (list str) -> list str -> proc
}.

(** How [copy_files_to_server] ends: with its pair, or with an exception
    that no handler catches. *)
Inductive copy_result :=
| Done (ok : bool) (message : str)
| Escapes (e : py_exception).

Definition target (h : host) : str :=
  match hostname h with
  | Some x => if truthy x then x else name h
  | None => name h
  end.

Definition identity_options (S : shell) (h : host) : list str :=
  match identity_file h with
  | Some f => if truthy f && file_exists S f then [lit "-i"; f] else []
  | None => []
  end.

Definition connection_options : list str :=
  [lit "-o"; lit "StrictHostKeyChecking=no"; lit "-o"; lit "ConnectTimeout=10"].

Definition login (h : host) : str :=
  match user h with
  | Some u => if truthy u then u ++ lit "@" ++ target h else target h
  | None => target h
  end.

(** [password and (not identity_file or not os.path.exists(identity_file))] *)
Definition password_needed (S : shell) (c : config) : bool :=
  truthy_opt (cfg_password c)
  && negb (identity_usable (file_exists S) (cfg_host c)).

Definition which_sshpass : list str := [lit "which"; lit "sshpass"].

Definition with_sshpass (c : config) (cmd : list str) : list str :=
  [lit "sshpass"; lit "-p"; default [] (cfg_password c)] ++ cmd.

(** The [ssh] command that creates the destination directory. *)
Definition mkdir_cmd (S : shell) (c : config) : list str :=
  [lit "ssh"] ++ identity_options S (cfg_host c) ++ connection_options
  ++ [login (cfg_host c)] ++ [lit "mkdir -p " ++ cfg_destination c].

Definition remote_dest (c : config) : str :=
  login (cfg_host c) ++ lit ":" ++ cfg_destination c.

(** The [scp] command. *)
Definition scp_cmd (S : shell) (file_paths : list str) (c : config) : list str :=
  [lit "scp"; lit "-r"] ++ identity_options S (cfg_host c) ++ connection_options
  ++ file_paths ++ [remote_dest c].

Definition sshpass_missing : str :=
  lit "Password authentication requires 'sshpass' to be installed."
  ++ [newline] ++ lit "Install with: brew install sshpass"
  ++ [newline] ++ lit "Alternatively, use SSH key authentication.".

(** The first [try] block: the commands run, added to those run before, and
    the exception that leaves the block, if one does. A failure that the
    handler catches only prints a warning. *)
Definition create_destination (S : shell) (c : config)
    (history : list (list str)) : list (list str) * option py_exception :=
  let run_mkdir (cmd : list str) (history : list (list str)) :=
    (history ++ [cmd],
     match run S history cmd with
     | Exited returncode stderr => None
     | Failed e message => if is_Exception e then None else Some e
     end) in
  if password_needed S c then
    match run S history which_sshpass with
    | Exited returncode stderr =>
        run_mkdir (if (returncode =? 0)%Z then with_sshpass c (mkdir_cmd S c)
                   else mkdir_cmd S c)
                  (history ++ [which_sshpass])
    | Failed e message =>
        (history ++ [which_sshpass], if is_Exception e then None else Some e)
    end
  else run_mkdir (mkdir_cmd S c) history.

(** The second [try] block. *)
Definition transfer (S : shell) (file_paths : list str) (c : config)
    (history : list (list str)) : list (list str) * copy_result :=
  let run_scp (cmd : list str) (history : list (list str)) :=
    (history ++ [cmd],
     match run S history cmd with
     | Exited returncode stderr =>
         if negb (returncode =? 0)%Z then Done false (lit "SCP failed: " ++ stderr)
         else Done true (lit "Files copied successfully!")
     | Failed e message => if is_Exception e then Done false message else Escapes e
     end) in
  if password_needed S c then
    match run S history which_sshpass with
    | Exited returncode stderr =>
        if (returncode =? 0)%Z
        then run_scp (with_sshpass c (scp_cmd S file_paths c))
                     (history ++ [which_sshpass])
        else (history ++ [which_sshpass], Done false sshpass_missing)
    | Failed e message =>
        (history ++ [which_sshpass],
         if is_Exception e then Done false message else Escapes e)
    end
  else run_scp (scp_cmd S file_paths c) history.

(** [copy_files_to_server]: the commands it runs, in their order, and how it
    ends. *)
Definition copy_files_to_server (S : shell) (file_paths : list str) (c : config)
    : list (list str) * copy_result :=
  if cfg_create_destination c then
    match create_destination S c [] with
    | (history, Some e) => (history, Escapes e)
    | (history, None) => transfer S file_paths c history
    end
  else transfer S file_paths c [].

(** Every exception the shell raises is one of [Exception]. *)
Definition raises_exceptions_only (S : shell) : Prop :=
  forall history cmd e message,
    run S history cmd = Failed e message -> is_Exception e = true.

(** The command that transfers the files. *)
Definition transfer_cmd (S : shell) (file_paths : list str) (c : config)
    : list str :=
  if password_needed S c then with_sshpass c (scp_cmd S file_paths c)
  else scp_cmd S file_paths c.

(** Sample data: a host with a key file, a configuration for it, a shell
    in which every command succeeds, and one without [sshpass]. *)
Definition sample_key_host : host :=
  Host (lit "web") (Some (lit "10.0.0.1")) (Some (lit "bob"))
       (Some (lit "/Users/a/.ssh/id")).

Definition sample_config (password : option str) : config :=
  Config sample_key_host (lit "~/in/") password true.

Definition obliging (key_exists : bool) : shell :=
  Shell (fun _ => key_exists) (fun _ _ => Exited 0 []).

Definition without_sshpass : shell :=
  Shell (fun _ => false)
        (fun _ cmd => if bool_decide (cmd = which_sshpass)
                      then Exited 1 [] else Exited 0 []).

End ScpCopy.

Export ScpCopy.

(** ** copy_to_server.py: [set_file_paths] *)

Module SourceList.

Definition folder_icon : str := [0x100215].
Definition document_icon : str := [0x100237].

(** What [set_file_paths] accumulates over the paths. *)
Record tally := Tally {
  files_counted : nat;
  dirs_counted : nat;
  max_width : nat;
  max_display_length : nat;
  rows : list (str * str)
}.

(** The path as shown: the local home directory becomes a tilde. *)
Definition display_path (local_home path : str) : str :=
  if startswith path local_home
  then lit "~" ++ drop (length local_home) path else path.

(** Body of the loop of [set_file_paths]. *)
Definition add_path (isdir : str -> bool) (local_home : str) (t : tally)
    (path : str) : tally :=
  let is_dir := isdir path in
  let shown := display_path local_home path in
  Tally (if is_dir then files_counted t else S (files_counted t))
        (if is_dir then S (dirs_counted t) else dirs_counted t)
        (Nat.max (max_width t) (length shown * 7))
        (Nat.max (max_display_length t) (length shown))
        (rows t ++ [(if is_dir then folder_icon else document_icon, shown)]).

Definition tally_paths (isdir : str -> bool) (local_home : str)
    (file_paths : list str) : tally :=
  foldl (add_path isdir local_home) (Tally 0 0 400 0 []) file_paths.

(** The text of the summary label. *)
Definition summary_text (file_count dir_count : nat) : str :=
  join (lit ", ")
    ((if (0 <? file_count)%nat
      then [decimal file_count ++ lit " file"
            ++ (if negb (file_count =? 1)%nat then lit "s" else [])]
      else [])
     ++ (if (0 <? dir_count)%nat
         then [decimal dir_count ++ lit " director"
               ++ (if negb (dir_count =? 1)%nat then lit "ies" else lit "y")]
         else [])).

(** What [set_file_paths] shows: the rows of icon and path, the width of
    the path column, whether the horizontal scrollbar is on the grid, and
    the summary. *)
Record source_view := SourceView {
  shown_rows : list (str * str);
  column_width : nat;
  h_scrollbar : bool;
  summary : str
}.

(** [set_file_paths] *)
Definition set_file_paths (isdir : str -> bool) (local_home : str)
    (file_paths : list str) : source_view :=
  let t := tally_paths isdir local_home file_paths in
  SourceView (rows t) (Nat.min (max_width t) 2000)
             (63 <? max_display_length t)%nat
             (summary_text (files_counted t) (dirs_counted t)).

End SourceList.

Export SourceList.

(** ** add_to_music.py: the dialogs, the lookup and the batch *)

Module MusicFlow.

(** The values that travel between the dialog functions: [None], a
    boolean, or a string. *)
Inductive value :=
| VNone
| VBool (b : bool)
| VStr (s : str).

(** [v == literal] for a string literal: a boolean never equals a string. *)
Definition equals_str (v : value) (literal : str) : bool :=
  match v with
  | VStr s => bool_decide (s = literal)
  | _ => false
  end.

(** Truth value of [v]. *)
Definition value_truthy (v : value) : bool :=
  match v with
  | VNone => false
  | VBool b => b
  | VStr s => truthy s
  end.

(** A metadata dict with the keys ['title'], ['artist'], ['album'] and
    ['date']; [None] stands for a key that is missing or holds [None]. *)
Record metadata := Metadata {
  md_title : option str;
  md_artist : option str;
  md_album : option str;
  md_date : option str
}.

(** [x or None] on the text of an entry field. *)
Definition or_none (s : str) : option str :=
  if truthy s then Some s else None.

(** [MetadataDialog.get_metadata] on the texts of the four fields. *)
Definition get_metadata (title artist album date : str) : metadata :=
  Metadata (or_none title) (or_none artist) (or_none album) (or_none date).

(** What the user does with a [MetadataDialog]: the window is closed, or a
    button is pressed with the four fields as they then are. *)
Inductive user_action :=
| closes_window
| clicks_cancel
| clicks_import (title artist album date : str).

(** [MetadataDialog.show]: [(self.action, self.result)]. *)
Definition show (u : user_action) : value * option metadata :=
  match u with
  | closes_window => (VNone, None)
  | clicks_cancel => (VStr (lit "cancel"), None)
  | clicks_import title artist album date =>
      (VStr (lit "import"), Some (get_metadata title artist album date))
  end.

(** How a dialog goes: it is shown and used, or building or running it
    raises and the terminal is asked instead, where [input()] returns a
    line or raises itself ([None]). *)
Inductive dialog_run :=
| shown (u : user_action)
| dialog_raises (terminal : option str).

(** [show_editable_metadata_dialog]; [None] when the exception of [input()]
    leaves the function. *)
Definition show_editable_metadata_dialog (run : dialog_run)
    (title artist album date : str) : option (value * option metadata) :=
  match run with
  | shown u =>
      let '(action, metadata) := show u in
      if equals_str action (lit "import") then Some (VBool true, metadata)
      else Some (VBool false, None)
  | dialog_raises None => None
  | dialog_raises (Some line) =>
      if bool_decide (lower line = lit "y")
      then Some (VBool true,
                 Some (Metadata (Some title) (Some artist) (Some album) (Some date)))
      else Some (VBool false, None)
  end.

(** [show_confirmation_dialog] *)
Definition show_confirmation_dialog (run : dialog_run)
    (title artist album date : str) : option (value * option metadata) :=
  '(action, metadata) ← show_editable_metadata_dialog run title artist album date;
  if equals_str action (lit "import") then Some (VBool true, metadata)
  else if equals_str action (lit "retry") then Some (VStr (lit "retry"), metadata)
  else Some (VBool false, None).

(** A recording as MusicBrainz returns it, with the keys the script reads,
    and a release of its ['release-list']. *)
Record release := Release {
  rel_title : option str;
  rel_date : option str
}.

Record recording := Recording {
  rec_title : option str;
  rec_artist_credit_phrase : option str;
  rec_release_list : option (list release)
}.

(** The metadata [get_metadata_from_musicbrainz] builds from a recording. *)
Definition recording_metadata (r : recording) : metadata :=
  let first_release :=
    match rec_release_list r with
    | Some (rel :: _) => Some rel
    | _ => None
    end in
  Metadata (Some (default [] (rec_title r)))
           (Some (default [] (rec_artist_credit_phrase r)))
           ((fun rel => default [] (rel_title rel)) <$> first_release)
           ((fun rel => default [] (rel_date rel)) <$> first_release).

(** How one call of [musicbrainzngs.get_recording_by_id] ends: with a
    recording, or with an exception whose [str(e)] is [message]. *)
Inductive lookup :=
| found (r : recording)
| throws (message : str).

Definition max_retries : nat := 5.

(** The test for an error worth a retry. *)
Definition connection_error (message : str) : bool :=
  existsb (fun err => contains (lower message) err)
    [lit "connection reset"; lit "urlopen error"; lit "connection error";
     lit "timeout"].

(** The loop of [get_metadata_from_musicbrainz] from attempt [attempt] on,
    with [remaining] turns left: the metadata, if any, and the seconds
    slept, in their order, after those of [slept]. *)
Fixpoint retry_from (service : nat -> lookup) (remaining attempt retry_delay : nat)
    (slept : list nat) : option metadata * list nat :=
  match remaining with
  | O => (None, slept)
  | S remaining =>
      match service attempt with
      | found r => (Some (recording_metadata r), slept)
      | throws message =>
          if connection_error message then
            if (attempt <? max_retries - 1)%nat
            then retry_from service remaining (S attempt) (retry_delay * 2)
                            (slept ++ [retry_delay])
            else (None, slept)
          else (None, slept)
      end
  end.

(** [get_metadata_from_musicbrainz]; [service n] is how the call of attempt
    [n] ends. *)
Definition get_metadata_from_musicbrainz (service : nat -> lookup)
    : option metadata * list nat :=
  retry_from service max_retries 0 1 [].

(** How [main] ends: with the usage message and exit status 1, with a count
    of the files processed successfully, or with an exception out of one
    of the files. *)
Inductive batch :=
| usage_exit
| processed (success_count : nat) (fs : filesystem)
| crashed.

(** The loop of [main] over the files, each with the answers of its run. *)
Fixpoint process_all (userhome : str) (fuel : nat) (success_count : nat)
    (fs : filesystem) (jobs : list (str * answers)) : batch :=
  match jobs with
  | [] => processed success_count fs
  | (file_path, A) :: jobs =>
      match process_audio_file userhome A fuel fs file_path with
      | Finished ok fs =>
          process_all userhome fuel
            (if ok then S success_count else success_count) fs jobs
      | _ => crashed
      end
  end.

(** [main] of add_to_music.py on the arguments after the script name. *)
Definition music_main (userhome : str) (fuel : nat) (fs : filesystem)
    (jobs : list (str * answers)) : batch :=
  match jobs with
  | [] => usage_exit
  | _ :: _ => process_all userhome fuel 0 fs jobs
  end.

(** The answers of a run whose confirmation is what
    [show_confirmation_dialog] returned. *)
Definition answers_of (confirmation : value * option metadata)
    (retag : list N -> list N) (move_raises : bool) : answers :=
  Answers (value_truthy confirmation.1) retag move_raises.

End MusicFlow.

Export MusicFlow.

(** ** Facts about the string primitives *)

Section StringFacts.

Implicit Types (s p q home : str) (c : N) (P : N -> bool).

Lemma lit_sep : lit "/" = [sep].
Proof. reflexivity. Qed.

Lemma lit_tilde : lit "~" = [tilde].
Proof. reflexivity. Qed.

Lemma truthy_true s : truthy s = true <-> s <> [].
Proof. destruct s; simpl; split; congruence. Qed.

Lemma truthy_false s : truthy s = false <-> s = [].
Proof. destruct s; simpl; split; congruence. Qed.

Lemma mem_sep c : mem c (lit "/") = (c =? sep).
Proof. unfold mem; simpl. apply orb_false_r. Qed.

(** What [rstrip_by] leaves does not end with a stripped character. *)
Lemma rstrip_by_last P s c : last (rstrip_by P s) = Some c -> P c = false.
Proof.
  induction s as [|x s IH]; simpl; [discriminate|].
  destruct (rstrip_by P s) as [|y r] eqn:Hr.
  - destruct (P x) eqn:Hx; simpl; [discriminate|].
    intros [= <-]; exact Hx.
  - rewrite last_cons_cons. exact IH.
Qed.

(** [rstrip_by] removes a suffix made of stripped characters only. *)
Lemma rstrip_by_split P s :
  exists t, s = rstrip_by P s ++ t /\ forallb P t = true.
Proof.
  induction s as [|x s (t & Hs & Ht)]; simpl.
  - exists []; split; reflexivity.
  - destruct (rstrip_by P s) as [|y r] eqn:Hr.
    + destruct (P x) eqn:Hx.
      * exists (x :: t). simpl in *. rewrite Hx, Ht. split; [f_equal; exact Hs|reflexivity].
      * exists t. simpl in *. split; [f_equal; exact Hs|assumption].
    + exists t. split; [simpl; f_equal; exact Hs|assumption].
Qed.

Lemma rstrip_by_fixed P s :
  (forall c, last s = Some c -> P c = false) -> rstrip_by P s = s.
Proof.
  induction s as [|x s IH]; simpl; [reflexivity|].
  intros Hl. destruct s as [|y s'].
  - simpl. rewrite (Hl x eq_refl). reflexivity.
  - rewrite IH by (intros c Hc; apply Hl; rewrite last_cons_cons; exact Hc).
    reflexivity.
Qed.

Lemma rstrip_last s : last (rstrip s (lit "/")) <> Some sep.
Proof.
  intros H. apply rstrip_by_last in H. rewrite mem_sep in H.
  unfold sep in H. discriminate.
Qed.

Lemma last_drop s n c : last (drop n s) = Some c -> last s = Some c.
Proof.
  intros H. rewrite <- (take_drop n s). rewrite last_app, H. reflexivity.
Qed.

Lemma startswith_app s p : startswith (p ++ s) p = true.
Proof.
  induction p as [|a p IH]; simpl; [destruct s; reflexivity|].
  rewrite N.eqb_refl. exact IH.
Qed.

Lemma startswith_inv s p : startswith s p = true -> s = p ++ drop (length p) s.
Proof.
  revert s. induction p as [|a p IH]; intros s; simpl.
  - reflexivity.
  - destruct s as [|b s]; [discriminate|].
    intros [Hab Hs]%andb_prop. apply N.eqb_eq in Hab. subst b.
    simpl. f_equal. apply IH. exact Hs.
Qed.

Lemma startswith_length s p : startswith s p = true -> (length p <= length s)%nat.
Proof.
  intros H. rewrite (startswith_inv _ _ H), length_app. lia.
Qed.

Lemma leading_run_head c s : head s <> Some c -> leading_run c s = O.
Proof.
  destruct s as [|x s]; simpl; [reflexivity|].
  intros H. destruct (N.eqb_spec x c); [congruence|reflexivity].
Qed.

(** A string that does not end with the separator ends with exactly one
    once a separator is appended. *)
Lemma trailing_seps_snoc p : last p <> Some sep -> trailing_seps (p ++ [sep]) = 1%nat.
Proof.
  intros H. unfold trailing_seps. rewrite reverse_snoc. simpl.
  rewrite leading_run_head; [reflexivity|]. rewrite head_reverse. exact H.
Qed.

Lemma trailing_seps_pos s : (1 <= trailing_seps s)%nat <-> last s = Some sep.
Proof.
  unfold trailing_seps. rewrite <- head_reverse.
  destruct (reverse s) as [|x r]; simpl; [split; [lia|discriminate]|].
  destruct (N.eqb_spec x sep); split; intros H; try lia; congruence.
Qed.

End StringFacts.

(** ** Facts about the two loop bodies *)

Section LineFacts.

Implicit Types (E : env) (st : dialog) (p q home line : str) (using_tilde : bool).

(** The two fetch functions treat a line alike. *)
Lemma remote_line_filter_line using_tilde remote_home line :
  remote_line using_tilde remote_home line = filter_line using_tilde remote_home line.
Proof.
  unfold remote_line, filter_line. fold (bare line).
  destruct remote_home as [home|]; simpl.
  - destruct using_tilde, (truthy (bare line)), (truthy home); simpl; reflexivity.
  - rewrite !andb_false_r. reflexivity.
Qed.

Lemma filter_line_rewritten using_tilde home line :
  rewrites using_tilde (Some home) line = true ->
  filter_line using_tilde (Some home) line
  = Some (lit "~" ++ drop (length home) (bare line) ++ lit "/").
Proof.
  unfold rewrites, filter_line, truthy_opt. fold (bare line).
  intros [[[-> ->]%andb_prop ->]%andb_prop ->]%andb_prop. simpl.
  reflexivity.
Qed.

Lemma filter_line_kept using_tilde remote_home line :
  rewrites using_tilde remote_home line = false ->
  filter_line using_tilde remote_home line
  = if truthy (bare line) then Some (bare line ++ lit "/") else None.
Proof.
  unfold rewrites, filter_line. fold (bare line).
  destruct remote_home as [home|]; simpl.
  - destruct using_tilde, (truthy (bare line)) eqn:Hp, (truthy home); simpl;
      try (rewrite Hp; reflexivity).
    intros ->. rewrite Hp. reflexivity.
  - rewrite andb_false_r. reflexivity.
Qed.

(** Whatever a line contributes is a non-empty string without a trailing
    separator, followed by one separator. *)
Lemma filter_line_shape using_tilde remote_home line q :
  filter_line using_tilde remote_home line = Some q ->
  exists p, q = p ++ [sep] /\ p <> [] /\ last p <> Some sep.
Proof.
  destruct (rewrites using_tilde remote_home line) eqn:Hrw.
  - destruct remote_home as [home|]; [|discriminate].
    rewrite (filter_line_rewritten _ _ _ Hrw). intros [= <-].
    exists (lit "~" ++ drop (length home) (bare line)).
    rewrite <- lit_sep, <- app_assoc. split; [reflexivity|]. split; [discriminate|].
    rewrite lit_tilde. simpl. rewrite last_cons.
    destruct (last (drop (length home) (bare line))) as [c|] eqn:Hl.
    + apply last_drop in Hl. intros [= ->]. exact (rstrip_last _ Hl).
    + discriminate.
  - rewrite (filter_line_kept _ _ _ Hrw).
    destruct (truthy (bare line)) eqn:Hp; [|discriminate].
    intros [= <-]. exists (bare line). rewrite lit_sep.
    split; [reflexivity|]. split; [apply truthy_true, Hp|apply rstrip_last].
Qed.

Lemma snoc_well_formed p : well_formed (p ++ [sep]).
Proof.
  split; [destruct p; discriminate|apply last_snoc].
Qed.

Lemma filter_line_well_formed using_tilde remote_home line q :
  filter_line using_tilde remote_home line = Some q -> well_formed q.
Proof.
  intros (p & -> & _)%filter_line_shape. apply snoc_well_formed.
Qed.

Lemma home_replacement_well_formed home p : well_formed (home_replacement home p).
Proof.
  unfold home_replacement. rewrite lit_sep.
  destruct (startswith _ (lit "~")); apply snoc_well_formed.
Qed.

(** The candidates of either fetch function are contributions of lines of
    the listing. *)
Lemma candidates_filter E st dir_path prefix q :
  q ∈ candidates (fetch_and_filter_paths E st dir_path prefix) ->
  exists using_tilde line, filter_line using_tilde (remote_home st) line = Some q.
Proof.
  unfold fetch_and_filter_paths.
  destruct (selected_host st) as [h|]; simpl; [|intros []%elem_of_nil].
  destruct (subprocess_run E _) as [rc out|e].
  - destruct ((rc =? 0)%Z && truthy (strip out)); simpl; [|intros []%elem_of_nil].
    destruct (omap _ _) as [|q0 qs] eqn:Hom; simpl; [intros []%elem_of_nil|].
    rewrite <- Hom. intros (line & _ & Hq)%list_elem_of_omap. eauto.
  - destruct (is_Exception e); simpl; intros []%elem_of_nil.
Qed.

Lemma candidates_remote E st remote_path q :
  q ∈ candidates (fetch_remote_paths E st remote_path) ->
  exists using_tilde line, filter_line using_tilde (remote_home st) line = Some q.
Proof.
  unfold fetch_remote_paths.
  destruct (selected_host st) as [h|]; simpl; [|intros []%elem_of_nil].
  destruct (subprocess_run E _) as [rc out|e].
  - destruct ((rc =? 0)%Z && truthy (strip out)); simpl; [|intros []%elem_of_nil].
    intros (line & _ & Hq)%list_elem_of_omap.
    rewrite remote_line_filter_line in Hq. eauto.
  - destruct (is_Exception e); simpl; intros []%elem_of_nil.
Qed.

(** How either task can end. *)
Lemma fetch_and_filter_queue E st dir_path prefix :
  (exists printed,
     fetch_and_filter_paths E st dir_path prefix = Returned None printed)
  \/ (exists paths, fetch_and_filter_paths E st dir_path prefix
                    = Returned (Some (call_update_and_show_dropdown paths)) None)
  \/ (exists e, fetch_and_filter_paths E st dir_path prefix = Uncaught e).
Proof.
  unfold fetch_and_filter_paths.
  destruct (selected_host st); [|eauto].
  destruct (subprocess_run E _) as [rc out|e].
  - destruct (_ && _); [|eauto]. destruct (omap _ _); eauto.
  - destruct (is_Exception e); eauto.
Qed.

Lemma fetch_remote_queue E st remote_path :
  (exists printed, fetch_remote_paths E st remote_path = Returned None printed)
  \/ (exists paths, fetch_remote_paths E st remote_path
                    = Returned (Some (call_update_destination_values paths)) None)
  \/ (exists e, fetch_remote_paths E st remote_path = Uncaught e).
Proof.
  unfold fetch_remote_paths.
  destruct (selected_host st); [|eauto].
  destruct (subprocess_run E _) as [rc out|e].
  - destruct (_ && _); eauto.
  - destruct (is_Exception e); eauto.
Qed.

(** A queued candidate list is either ignored, being empty, or becomes both
    the stored list and the option list of the combobox. *)
Lemma settle_filter_delivers E st st' dir_path prefix :
  settle (fetch_and_filter_paths E st dir_path prefix) st' = st'
  \/ destination_paths (settle (fetch_and_filter_paths E st dir_path prefix) st')
     = candidates (fetch_and_filter_paths E st dir_path prefix)
     /\ dest_combo_values (settle (fetch_and_filter_paths E st dir_path prefix) st')
        = candidates (fetch_and_filter_paths E st dir_path prefix).
Proof.
  destruct (fetch_and_filter_queue E st dir_path prefix)
    as [[pr ->]|[[paths ->]|[e ->]]]; simpl; auto.
  destruct paths; simpl; auto.
Qed.

Lemma settle_remote_delivers E st st' remote_path :
  settle (fetch_remote_paths E st remote_path) st' = st'
  \/ destination_paths (settle (fetch_remote_paths E st remote_path) st')
     = candidates (fetch_remote_paths E st remote_path)
     /\ dest_combo_values (settle (fetch_remote_paths E st remote_path) st')
        = candidates (fetch_remote_paths E st remote_path).
Proof.
  destruct (fetch_remote_queue E st remote_path)
    as [[pr ->]|[[paths ->]|[e ->]]]; simpl; auto.
  destruct paths; simpl; auto.
Qed.

End LineFacts.

(** ** The candidates of the completer *)

Section Candidates.

Implicit Types (E : env) (st : dialog) (p q home line : str).

(** C1. Whatever the remote listing prints and whatever the home-directory
    cache holds, every candidate that [fetch_and_filter_paths] or
    [fetch_remote_paths] hands over, and every path of the list that
    [apply_home_replacement_to_paths] puts into the dialog and the combobox,
    is a non-empty string that ends with the separator '/'. Whenever the
    dialog changes on delivery, the option list of the combobox becomes
    exactly the candidates handed over. *)
Theorem candidates_well_formed E st st' dir_path prefix remote_path :
  Forall well_formed (candidates (fetch_and_filter_paths E st dir_path prefix))
  /\ Forall well_formed (candidates (fetch_remote_paths E st remote_path))
  /\ (settle (fetch_and_filter_paths E st dir_path prefix) st' = st'
      \/ dest_combo_values (settle (fetch_and_filter_paths E st dir_path prefix) st')
         = candidates (fetch_and_filter_paths E st dir_path prefix))
  /\ (settle (fetch_remote_paths E st remote_path) st' = st'
      \/ dest_combo_values (settle (fetch_remote_paths E st remote_path) st')
         = candidates (fetch_remote_paths E st remote_path))
  /\ (apply_home_replacement_to_paths st = st
      \/ Forall well_formed
           (destination_paths (apply_home_replacement_to_paths st))
         /\ dest_combo_values (apply_home_replacement_to_paths st)
            = destination_paths (apply_home_replacement_to_paths st)).
Proof.
  split; [|split; [|split; [|split]]].
  - apply Forall_forall. intros q (ut & line & Hq)%candidates_filter.
    exact (filter_line_well_formed _ _ _ _ Hq).
  - apply Forall_forall. intros q (ut & line & Hq)%candidates_remote.
    exact (filter_line_well_formed _ _ _ _ Hq).
  - destruct (settle_filter_delivers E st st' dir_path prefix) as [H|[_ H]]; auto.
  - destruct (settle_remote_delivers E st st' remote_path) as [H|[_ H]]; auto.
  - unfold apply_home_replacement_to_paths.
    destruct (remote_home st) as [home|]; [|left; reflexivity].
    destruct (destination_paths st) as [|p0 ps] eqn:Hps; [left; reflexivity|].
    destruct (truthy home); [|left; reflexivity].
    right.
    assert (Forall well_formed (home_replacement home <$> p0 :: ps)) as Hwf.
    { apply Forall_fmap, Forall_forall. intros p _.
      apply home_replacement_well_formed. }
    destruct (_ && _); simpl; split; (exact Hwf || reflexivity).
Qed.

(** The cache holds nothing or a non-empty string. *)
Lemma fetch_remote_home_truthy E st home :
  fetch_remote_home E st = Some home -> home <> [].
Proof.
  unfold fetch_remote_home. destruct (selected_host st); [|discriminate].
  destruct (subprocess_run E _) as [rc out|e]; [|discriminate].
  destruct (rc =? 0)%Z; simpl; [|discriminate].
  destruct (truthy (strip out)) eqn:Ht; [|discriminate].
  intros [= <-]. apply truthy_true, Ht.
Qed.

(** The list that [load_destination_suggestions] starts with is well formed
    too. *)
Lemma load_destination_suggestions_well_formed st :
  (load_destination_suggestions st).1 = st
  \/ Forall well_formed (dest_combo_values (load_destination_suggestions st).1).
Proof.
  unfold load_destination_suggestions. destruct (selected_host st); [|auto].
  right. simpl. repeat constructor. discriminate.
Qed.

End Candidates.

(** ** Normalization and home-relative rewriting of one line *)

Section Normalization.

Implicit Types (st : dialog) (p q home line : str) (using_tilde : bool).

Lemma filter_line_normal_form using_tilde remote_home line :
  filter_line using_tilde remote_home line
  = if truthy (normal_form using_tilde remote_home line)
    then Some (normal_form using_tilde remote_home line ++ lit "/")
    else None.
Proof.
  unfold normal_form.
  destruct (rewrites using_tilde remote_home line) eqn:Hrw.
  - destruct remote_home as [home|]; [|discriminate].
    rewrite (filter_line_rewritten _ _ _ Hrw). simpl. reflexivity.
  - apply filter_line_kept, Hrw.
Qed.

Lemma rewrites_unset using_tilde remote_home line :
  truthy_opt remote_home = false -> rewrites using_tilde remote_home line = false.
Proof.
  destruct remote_home as [home|]; simpl; [|reflexivity].
  intros ->. rewrite andb_false_r. reflexivity.
Qed.

Lemma rewrites_not_tilde remote_home line :
  rewrites false remote_home line = false.
Proof. destruct remote_home; reflexivity. Qed.

Lemma bare_trailing_seps line : trailing_seps (bare line ++ lit "/") = 1%nat.
Proof. rewrite lit_sep. apply trailing_seps_snoc, rstrip_last. Qed.

(** Against C2 as stated. The raw line "/" ends with one separator, and
    neither fetch function makes a candidate of it: stripped of its
    separators it is empty, and empty paths are skipped. *)
Lemma lone_separator_yields_nothing :
  trailing_seps (lit "/") = 1%nat
  /\ filter_line false None (lit "/") = None
  /\ remote_line false None (lit "/") = None
  /\ fetch_and_filter_paths (answering 0 (lit "/"))
       (sample_dialog None (lit "/ x/") []) (lit "/ x/") []
     = Returned None None
  /\ candidates (fetch_remote_paths (answering 0 (lit "/"))
                   (sample_dialog None (lit "/ x/") []) (lit "/ x/")) = [].
Proof. repeat split; reflexivity. Qed.

(** C2, amended. A raw listing line that keeps at least one character once
    white space around it and the separators at its end are removed, however
    many separators it ended with, becomes a candidate with exactly one
    trailing separator, the same in both fetch functions; a line of which
    nothing is left becomes no candidate at all. The listing "/tmp/x//" gives
    the single candidate "/tmp/x/". *)
Theorem normalization_one_separator using_tilde remote_home line :
  (bare line <> [] ->
   exists q, filter_line using_tilde remote_home line = Some q
             /\ remote_line using_tilde remote_home line = Some q
             /\ trailing_seps q = 1%nat)
  /\ (bare line = [] ->
      filter_line using_tilde remote_home line = None
      /\ remote_line using_tilde remote_home line = None)
  /\ candidates (fetch_and_filter_paths (answering 0 (unlines [lit "/tmp/x//"]))
                   (sample_dialog None (lit "/tmp/") []) (lit "/tmp/") [])
     = [lit "/tmp/x/"]
  /\ candidates (fetch_remote_paths (answering 0 (unlines [lit "/tmp/x//"]))
                   (sample_dialog None (lit "/tmp/") []) (lit "/tmp/"))
     = [lit "/tmp/x/"].
Proof.
  rewrite remote_line_filter_line.
  split; [|split; [|split; reflexivity]].
  - intros Hne.
    destruct (filter_line using_tilde remote_home line) as [q|] eqn:Hq.
    + exists q. split; [reflexivity|]. split; [reflexivity|].
      destruct (filter_line_shape _ _ _ _ Hq) as (p & -> & _ & Hlast).
      apply trailing_seps_snoc, Hlast.
    + exfalso. revert Hq. rewrite filter_line_normal_form. unfold normal_form.
      destruct (rewrites _ _ _); simpl; [discriminate|].
      apply truthy_true in Hne. rewrite Hne. discriminate.
  - intros Hnil.
    assert (rewrites using_tilde remote_home line = false) as Hrw.
    { unfold rewrites. destruct remote_home; [|reflexivity].
      rewrite Hnil. simpl. rewrite andb_false_r. reflexivity. }
    rewrite (filter_line_kept _ _ _ Hrw), Hnil. split; reflexivity.
Qed.

Lemma normalization_one_separator_witness :
  exists q, filter_line true (Some (lit "/home/alice")) (lit "/tmp/x//") = Some q
            /\ remote_line true (Some (lit "/home/alice")) (lit "/tmp/x//") = Some q
            /\ trailing_seps q = 1%nat.
Proof.
  apply (normalization_one_separator true (Some (lit "/home/alice"))
           (lit "/tmp/x//")).
  vm_compute. discriminate.
Defined.

(** Against C3 as stated. A cached home directory that ends with a
    separator is a literal prefix of the candidate "/home/alice/" and yet
    nothing is rewritten, because the prefix test runs after the trailing
    separators are gone; and for the line "/home/alice/docs//" the rewritten
    candidate is shorter than the length of the raw line would give. *)
Lemma home_prefix_not_always_rewritten :
  startswith (lit "/home/alice/") (lit "/home/alice/") = true
  /\ filter_line true (Some (lit "/home/alice/")) (lit "/home/alice/")
     = Some (lit "/home/alice/")
  /\ remote_line true (Some (lit "/home/alice/")) (lit "/home/alice/")
     = Some (lit "/home/alice/")
  /\ startswith (lit "/home/alice/") (lit "~") = false
  /\ startswith (lit "/home/alice/docs//") (lit "/home/alice") = true
  /\ filter_line true (Some (lit "/home/alice")) (lit "/home/alice/docs//")
     = Some (lit "~/docs/")
  /\ length (lit "~/docs/")
     <> (length (lit "/home/alice/docs//") - length (lit "/home/alice") + 1)%nat.
Proof. repeat split; try reflexivity. vm_compute. discriminate. Qed.

(** C3, amended. If the cached remote home directory is the non-empty string
    H, the query is home-relative, and the raw line still starts with H once
    white space around it and the separators at its end are removed, then the
    candidate is '~', the rest of that line after H, and one separator: it
    starts with '~' and has length len(c) - len(H) + 1, where c is the line
    normalized to one trailing separator. The listing of
    "/home/alice/docs/" and "/home/alice/pics/" with H = "/home/alice" gives
    "~/docs/" and "~/pics/". *)
Theorem home_prefix_rewritten home line :
  home <> [] ->
  startswith (bare line) home = true ->
  let q := lit "~" ++ drop (length home) (bare line) ++ lit "/" in
  filter_line true (Some home) line = Some q
  /\ remote_line true (Some home) line = Some q
  /\ startswith q (lit "~") = true
  /\ length q = (length (bare line ++ lit "/") - length home + 1)%nat
  /\ candidates
       (fetch_and_filter_paths
          (answering 0 (unlines [lit "/home/alice/docs/"; lit "/home/alice/pics/"]))
          (sample_dialog (Some (lit "/home/alice")) (lit "~/") []) (lit "~/") [])
     = [lit "~/docs/"; lit "~/pics/"]
  /\ candidates
       (fetch_remote_paths
          (answering 0 (unlines [lit "/home/alice/docs/"; lit "/home/alice/pics/"]))
          (sample_dialog (Some (lit "/home/alice")) (lit "~/") []) (lit "~/"))
     = [lit "~/docs/"; lit "~/pics/"].
Proof.
  intros Hhome Hpre q.
  assert (rewrites true (Some home) line = true) as Hrw.
  { unfold rewrites. rewrite Hpre, andb_true_r. simpl.
    apply andb_true_intro. split; apply truthy_true; [|exact Hhome].
    intros Hnil. rewrite Hnil in Hpre. destruct home; [congruence|discriminate]. }
  rewrite remote_line_filter_line, (filter_line_rewritten _ _ _ Hrw).
  pose proof (startswith_length _ _ Hpre) as Hlen.
  repeat split; subst q.
  - apply (startswith_app _ (lit "~")).
  - rewrite !length_app, length_drop. simpl. lia.
Qed.

Lemma home_prefix_rewritten_witness :
  filter_line true (Some (lit "/home/alice")) (lit "/home/alice/docs//")
  = Some (lit "~/docs/")
  /\ length (lit "~/docs/")
     = (length (lit "/home/alice/docs/") - length (lit "/home/alice") + 1)%nat.
Proof.
  pose proof (home_prefix_rewritten (lit "/home/alice") (lit "/home/alice/docs//"))
    as H.
  destruct H as (Hf & _ & _ & Hl & _); [vm_compute; discriminate|reflexivity|].
  split; [exact Hf|exact Hl].
Defined.

(** Against C5 as stated. With no cached home directory the line " /tmp/x/"
    still changes beyond its trailing separators, since white space around it
    is stripped, and the line "/" gives no candidate at all. *)
Lemma empty_cache_still_strips :
  filter_line true None (lit " /tmp/x/") = Some (lit "/tmp/x/")
  /\ remote_line true None (lit " /tmp/x/") = Some (lit "/tmp/x/")
  /\ rstrip (lit " /tmp/x/") (lit "/") ++ lit "/" = lit " /tmp/x/"
  /\ lit "/tmp/x/" <> lit " /tmp/x/"
  /\ filter_line true None (lit "/") = None.
Proof. repeat split; try reflexivity. vm_compute. discriminate. Qed.

(** C5, amended. If the home-directory cache is empty, no home-shorthand
    rewriting occurs whatever the line holds: a line gives the candidate made
    of the line without the white space around it and with its trailing
    separators normalized to exactly one, or no candidate when nothing but
    white space and separators was there; and
    [apply_home_replacement_to_paths] leaves the dialog, the stored list
    included, unchanged. *)
Theorem empty_cache_no_rewriting st using_tilde line :
  truthy_opt (remote_home st) = false ->
  filter_line using_tilde (remote_home st) line
  = (if truthy (bare line) then Some (bare line ++ lit "/") else None)
  /\ remote_line using_tilde (remote_home st) line
     = (if truthy (bare line) then Some (bare line ++ lit "/") else None)
  /\ trailing_seps (bare line ++ lit "/") = 1%nat
  /\ apply_home_replacement_to_paths st = st.
Proof.
  intros Hunset.
  rewrite remote_line_filter_line,
    (filter_line_kept _ _ _ (rewrites_unset using_tilde _ line Hunset)).
  repeat split; [apply bare_trailing_seps|].
  unfold apply_home_replacement_to_paths.
  destruct (remote_home st) as [home|]; [|reflexivity].
  simpl in Hunset. rewrite Hunset. destruct (destination_paths st); reflexivity.
Qed.

Lemma empty_cache_no_rewriting_witness :
  filter_line true None (lit "/home/alice/docs//") = Some (lit "/home/alice/docs/")
  /\ apply_home_replacement_to_paths
       (sample_dialog None (lit "~/") [lit "/home/alice/docs/"])
     = sample_dialog None (lit "~/") [lit "/home/alice/docs/"].
Proof.
  pose proof (empty_cache_no_rewriting
                (sample_dialog None (lit "~/") [lit "/home/alice/docs/"])
                true (lit "/home/alice/docs//")) as H.
  destruct H as (Hf & _ & _ & Ha); [reflexivity|].
  split; [exact Hf|exact Ha].
Defined.

End Normalization.

(** ** When candidates are rewritten *)

Section RewritingScope.

Implicit Types (E : env) (st : dialog) (p q home line : str).

Lemma omap_filter_line_false remote_home (lines : list str) :
  omap (filter_line false remote_home) lines = omap (filter_line false None) lines.
Proof.
  apply list_omap_ext, Forall2_same_length_lookup_2; [reflexivity|].
  intros i x y Hx Hy. rewrite Hx in Hy. injection Hy as <-.
  rewrite !filter_line_kept; [reflexivity|reflexivity|apply rewrites_not_tilde].
Qed.

Lemma startswith_tilde_cons (a : N) p :
  startswith (a :: p) (lit "~") = (tilde =? a).
Proof.
  rewrite lit_tilde. cbn [startswith]. destruct p; apply andb_true_r.
Qed.

Lemma startswith_tilde_mismatch p home :
  startswith p (lit "~") = true -> startswith home (lit "~") = false ->
  truthy home && startswith p home = false.
Proof.
  destruct home as [|c home']; [reflexivity|].
  destruct p as [|a p']; [discriminate|].
  rewrite !startswith_tilde_cons. cbn [truthy startswith andb].
  intros Ha%N.eqb_eq Hc. rewrite <- Ha, N.eqb_sym, Hc. reflexivity.
Qed.

(** Against C4 as stated. The completions of "/home/" are in the dialog
    when the home directory arrives: the field does not start with "~/", and
    [apply_home_replacement_to_paths] still rewrites "/home/alice/". In the
    fetch functions a cached home directory that itself starts with '~'
    changes a candidate that started with '~'. *)
Lemma rewriting_beyond_tilde_queries :
  startswith (lit "/home/") (lit "~/") = false
  /\ destination_paths
       (apply_home_replacement_to_paths
          (sample_dialog (Some (lit "/home/alice")) (lit "/home/")
             [lit "/home/alice/"; lit "/home/bob/"]))
     = [lit "~/"; lit "/home/bob/"]
  /\ filter_line true (Some (lit "~alice")) (lit "~alice/docs/")
     = Some (lit "~/docs/").
Proof. repeat split; reflexivity. Qed.

(** C4, amended. In [fetch_and_filter_paths] and [fetch_remote_paths]
    home-shorthand rewriting happens only when the text of the destination
    field, respectively the listed path, began with '~/': otherwise the task
    ends as it would with an empty cache. There a candidate that already
    begins with '~' is left unchanged apart from separator normalization as
    long as the cached home directory does not begin with '~' itself.
    [apply_home_replacement_to_paths] does not look at the query: it leaves a
    stored path that begins with '~' unchanged apart from separator
    normalization and rewrites every other stored path that starts with the
    cached home directory. *)
Theorem tilde_rewriting_scope E st dir_path prefix remote_path home line p :
  (startswith (dest_var st) (lit "~/") = false ->
   fetch_and_filter_paths E st dir_path prefix
   = fetch_and_filter_paths E (set_remote_home st None) dir_path prefix)
  /\ (startswith remote_path (lit "~/") = false ->
      fetch_remote_paths E st remote_path
      = fetch_remote_paths E (set_remote_home st None) remote_path)
  /\ (startswith (bare line) (lit "~") = true ->
      startswith home (lit "~") = false ->
      forall using_tilde,
        filter_line using_tilde (Some home) line = Some (bare line ++ lit "/")
        /\ remote_line using_tilde (Some home) line = Some (bare line ++ lit "/"))
  /\ (startswith (rstrip p (lit "/")) (lit "~") = true ->
      home_replacement home p = rstrip p (lit "/") ++ lit "/")
  /\ (startswith (rstrip p (lit "/")) (lit "~") = false ->
      startswith (rstrip p (lit "/")) home = true ->
      home_replacement home p
      = lit "~" ++ drop (length home) (rstrip p (lit "/")) ++ lit "/").
Proof.
  split; [|split; [|split; [|split]]].
  - intros Hut. unfold fetch_and_filter_paths. simpl.
    destruct (selected_host st) as [h|]; [|reflexivity].
    rewrite Hut. destruct (subprocess_run E _) as [rc out|e]; [|reflexivity].
    destruct (_ && _); [|reflexivity].
    rewrite omap_filter_line_false. reflexivity.
  - intros Hut. unfold fetch_remote_paths. simpl.
    destruct (selected_host st) as [h|]; [|reflexivity].
    rewrite Hut. destruct (subprocess_run E _) as [rc out|e]; [|reflexivity].
    destruct (_ && _); [|reflexivity].
    do 3 f_equal. apply list_omap_ext, Forall2_same_length_lookup_2; [reflexivity|].
    intros i x y Hx Hy. rewrite Hx in Hy. injection Hy as <-.
    rewrite !remote_line_filter_line.
    rewrite !filter_line_kept; [reflexivity|reflexivity|apply rewrites_not_tilde].
  - intros Hp Hh using_tilde. rewrite remote_line_filter_line.
    assert (rewrites using_tilde (Some home) line = false) as Hrw.
    { unfold rewrites. rewrite <- andb_assoc.
      rewrite (startswith_tilde_mismatch _ _ Hp Hh). apply andb_false_r. }
    rewrite (filter_line_kept _ _ _ Hrw).
    destruct (bare line); [discriminate|]. split; reflexivity.
  - intros Hp. unfold home_replacement. rewrite Hp. reflexivity.
  - intros Hp Hh. unfold home_replacement. rewrite Hp, Hh.
    rewrite <- app_assoc. reflexivity.
Qed.

Lemma tilde_rewriting_scope_witness :
  fetch_and_filter_paths
    (answering 0 (unlines [lit "/home/alice/docs/"]))
    (sample_dialog (Some (lit "/home/alice")) (lit "/home/alice/") [])
    (lit "/home/alice/") []
  = fetch_and_filter_paths
      (answering 0 (unlines [lit "/home/alice/docs/"]))
      (set_remote_home
         (sample_dialog (Some (lit "/home/alice")) (lit "/home/alice/") []) None)
      (lit "/home/alice/") []
  /\ filter_line true (Some (lit "/home/alice")) (lit "~/docs//")
     = Some (lit "~/docs/")
  /\ home_replacement (lit "/home/alice") (lit "~/docs//") = lit "~/docs/"
  /\ home_replacement (lit "/home/alice") (lit "/home/alice/docs/")
     = lit "~/docs/".
Proof.
  pose proof (tilde_rewriting_scope
                (answering 0 (unlines [lit "/home/alice/docs/"]))
                (sample_dialog (Some (lit "/home/alice")) (lit "/home/alice/") [])
                (lit "/home/alice/") [] (lit "/home/alice/")
                (lit "/home/alice") (lit "~/docs//") (lit "~/docs//"))
    as (H1 & _ & H3 & H4 & _).
  pose proof (tilde_rewriting_scope
                (answering 0 (unlines [lit "/home/alice/docs/"]))
                (sample_dialog (Some (lit "/home/alice")) (lit "/home/alice/") [])
                (lit "/home/alice/") [] (lit "/home/alice/")
                (lit "/home/alice") (lit "~/docs//") (lit "/home/alice/docs/"))
    as (_ & _ & _ & _ & H5).
  split; [apply H1; reflexivity|].
  split; [apply (H3 eq_refl eq_refl true)|].
  split; [apply H4; reflexivity|apply H5; reflexivity].
Defined.

End RewritingScope.

(** ** Failed listings and what reaches the dialog *)

Section Failures.

Implicit Types (E : env) (st : dialog) (h : host).

Lemma fetch_and_filter_failed E st h dir_path prefix :
  selected_host st = Some h ->
  listing_failed (subprocess_run E (filter_ssh_cmd E h dir_path prefix)) = true ->
  exists printed, fetch_and_filter_paths E st dir_path prefix = Returned None printed.
Proof.
  intros Hh Hfail. unfold fetch_and_filter_paths. rewrite Hh.
  destruct (subprocess_run E _) as [rc out|e]; simpl in Hfail.
  - rewrite <- negb_andb in Hfail. apply negb_true_iff in Hfail.
    rewrite Hfail. eauto.
  - rewrite Hfail. eauto.
Qed.

Lemma fetch_remote_failed E st h remote_path :
  selected_host st = Some h ->
  listing_failed (subprocess_run E (remote_ssh_cmd E h remote_path)) = true ->
  exists printed, fetch_remote_paths E st remote_path = Returned None printed.
Proof.
  intros Hh Hfail. unfold fetch_remote_paths. rewrite Hh.
  destruct (subprocess_run E _) as [rc out|e]; simpl in Hfail.
  - rewrite <- negb_andb in Hfail. apply negb_true_iff in Hfail.
    rewrite Hfail. eauto.
  - rewrite Hfail. eauto.
Qed.

(** A task that hands over no candidates leaves the dialog as it finds it. *)
Lemma settle_filter_nothing E st st' dir_path prefix :
  candidates (fetch_and_filter_paths E st dir_path prefix) = [] ->
  settle (fetch_and_filter_paths E st dir_path prefix) st' = st'.
Proof.
  destruct (fetch_and_filter_queue E st dir_path prefix)
    as [[pr ->]|[[paths ->]|[e ->]]]; simpl; try reflexivity.
  intros ->. reflexivity.
Qed.

Lemma settle_remote_nothing E st st' remote_path :
  candidates (fetch_remote_paths E st remote_path) = [] ->
  settle (fetch_remote_paths E st remote_path) st' = st'.
Proof.
  destruct (fetch_remote_queue E st remote_path)
    as [[pr ->]|[[paths ->]|[e ->]]]; simpl; try reflexivity.
  intros ->. reflexivity.
Qed.

(** C6. When the remote listing call of [fetch_and_filter_paths] or
    [fetch_remote_paths] fails, by raising [TimeoutExpired] or another
    exception of [Exception], by a non-zero exit status (which is how a
    failed connection shows), or by printing nothing but white space, the
    task returns without an exception leaving it and without queuing any
    call: the caller gets an empty candidate sequence. *)
Theorem failed_listing_no_candidates E st h dir_path prefix remote_path :
  selected_host st = Some h ->
  (listing_failed (subprocess_run E (filter_ssh_cmd E h dir_path prefix)) = true ->
   (exists printed,
      fetch_and_filter_paths E st dir_path prefix = Returned None printed)
   /\ candidates (fetch_and_filter_paths E st dir_path prefix) = [])
  /\ (listing_failed (subprocess_run E (remote_ssh_cmd E h remote_path)) = true ->
      (exists printed,
         fetch_remote_paths E st remote_path = Returned None printed)
      /\ candidates (fetch_remote_paths E st remote_path) = [])
  /\ listing_failed (Raises TimeoutExpired) = true
  /\ (forall returncode stdout,
        returncode <> 0%Z ->
        listing_failed (CompletedProcess returncode stdout) = true)
  /\ (forall returncode stdout,
        strip stdout = [] ->
        listing_failed (CompletedProcess returncode stdout) = true).
Proof.
  intros Hh. split; [|split; [|split; [|split]]].
  - intros Hfail.
    destruct (fetch_and_filter_failed _ _ _ dir_path prefix Hh Hfail) as [pr Hr].
    rewrite Hr. eauto.
  - intros Hfail.
    destruct (fetch_remote_failed _ _ _ remote_path Hh Hfail) as [pr Hr].
    rewrite Hr. eauto.
  - reflexivity.
  - intros rc out Hrc. simpl. apply Z.eqb_neq in Hrc. rewrite Hrc. reflexivity.
  - intros rc out Hout. simpl. rewrite Hout. apply orb_true_r.
Qed.

Lemma failed_listing_no_candidates_witness :
  ((exists printed,
      fetch_and_filter_paths (raising TimeoutExpired)
        (sample_dialog None (lit "~/d") []) (lit "~/") (lit "d")
      = Returned None printed)
   /\ candidates (fetch_and_filter_paths (raising TimeoutExpired)
                    (sample_dialog None (lit "~/d") []) (lit "~/") (lit "d")) = [])
  /\ ((exists printed,
         fetch_remote_paths (raising TimeoutExpired)
           (sample_dialog None (lit "~/d") []) (lit "~/")
         = Returned None printed)
      /\ candidates (fetch_remote_paths (raising TimeoutExpired)
                       (sample_dialog None (lit "~/d") []) (lit "~/")) = []).
Proof.
  pose proof (failed_listing_no_candidates (raising TimeoutExpired)
                (sample_dialog None (lit "~/d") []) sample_host
                (lit "~/") (lit "d") (lit "~/") eq_refl) as (H1 & H2 & _).
  split; [apply H1; reflexivity|apply H2; reflexivity].
Defined.

(** C9. When the remote listing fails (an exception such as a timeout, a
    non-zero exit status, or blank output) or no candidate survives, the
    dialog is, once the task has ended, exactly as it was, the stored
    candidate list and the option values of the combobox included:
    [update_and_show_dropdown] and [update_destination_values] ignore an
    empty list and store a non-empty one. *)
Theorem failed_listing_keeps_completions E st st' h dir_path prefix remote_path
    (paths : list str) :
  selected_host st = Some h ->
  (listing_failed (subprocess_run E (filter_ssh_cmd E h dir_path prefix)) = true
   \/ candidates (fetch_and_filter_paths E st dir_path prefix) = [] ->
   settle (fetch_and_filter_paths E st dir_path prefix) st' = st')
  /\ (listing_failed (subprocess_run E (remote_ssh_cmd E h remote_path)) = true
      \/ candidates (fetch_remote_paths E st remote_path) = [] ->
      settle (fetch_remote_paths E st remote_path) st' = st')
  /\ update_and_show_dropdown st' [] = st'
  /\ update_destination_values st' [] = st'
  /\ (paths <> [] ->
      destination_paths (update_and_show_dropdown st' paths) = paths
      /\ dest_combo_values (update_and_show_dropdown st' paths) = paths
      /\ destination_paths (update_destination_values st' paths) = paths
      /\ dest_combo_values (update_destination_values st' paths) = paths).
Proof.
  intros Hh. split; [|split; [|split; [|split]]]; try reflexivity.
  - intros [Hfail|Hnone]; [|apply settle_filter_nothing, Hnone].
    destruct (fetch_and_filter_failed _ _ _ dir_path prefix Hh Hfail) as [pr ->].
    reflexivity.
  - intros [Hfail|Hnone]; [|apply settle_remote_nothing, Hnone].
    destruct (fetch_remote_failed _ _ _ remote_path Hh Hfail) as [pr ->].
    reflexivity.
  - intros Hne. destruct paths; [congruence|]. repeat split.
Qed.

Lemma failed_listing_keeps_completions_witness :
  settle (fetch_and_filter_paths (answering 255 [])
            (sample_dialog None (lit "~/d") [lit "~/docs/"]) (lit "~/") (lit "d"))
         (sample_dialog None (lit "~/d") [lit "~/docs/"])
  = sample_dialog None (lit "~/d") [lit "~/docs/"]
  /\ settle (fetch_remote_paths (answering 0 (lit "/"))
               (sample_dialog None (lit "~/d") [lit "~/docs/"]) (lit "~/"))
            (sample_dialog None (lit "~/d") [lit "~/docs/"])
     = sample_dialog None (lit "~/d") [lit "~/docs/"]
  /\ destination_paths
       (update_and_show_dropdown (sample_dialog None (lit "~/d") [lit "~/docs/"])
          [lit "~/data/"])
     = [lit "~/data/"].
Proof.
  pose proof (failed_listing_keeps_completions (answering 255 [])
                (sample_dialog None (lit "~/d") [lit "~/docs/"])
                (sample_dialog None (lit "~/d") [lit "~/docs/"])
                sample_host (lit "~/") (lit "d") (lit "~/") [lit "~/data/"]
                eq_refl) as (H1 & _ & _ & _ & H5).
  pose proof (failed_listing_keeps_completions (answering 0 (lit "/"))
                (sample_dialog None (lit "~/d") [lit "~/docs/"])
                (sample_dialog None (lit "~/d") [lit "~/docs/"])
                sample_host (lit "~/") (lit "d") (lit "~/") [lit "~/data/"]
                eq_refl) as (_ & H2 & _).
  split; [apply H1; left; reflexivity|].
  split; [apply H2; right; reflexivity|].
  apply H5. discriminate.
Defined.

End Failures.

(** ** Order, multiplicity and size of a listing *)

Section Listing.

Implicit Types (E : env) (st : dialog) (h : host) (lines : list str).

Lemma normal_form_blank using_tilde remote_home :
  normal_form using_tilde remote_home [] = [].
Proof.
  unfold normal_form, rewrites. destruct remote_home; [|reflexivity].
  change (bare []) with (@nil N). simpl. rewrite andb_false_r. reflexivity.
Qed.

Lemma omap_filter_line using_tilde remote_home lines :
  omap (filter_line using_tilde remote_home) lines
  = (.++ lit "/") <$> filter (.≠ []) (normal_form using_tilde remote_home <$> lines).
Proof.
  induction lines as [|line lines IH]; [reflexivity|].
  cbn [omap list_omap fmap list_fmap]. rewrite filter_line_normal_form.
  fold (omap (filter_line using_tilde remote_home) lines).
  fold (normal_form using_tilde remote_home <$> lines).
  destruct (normal_form using_tilde remote_home line) as [|c r] eqn:Hn.
  - rewrite filter_cons_False by (intros Hne; apply Hne; reflexivity).
    simpl. exact IH.
  - rewrite filter_cons_True by discriminate. simpl. rewrite IH. reflexivity.
Qed.

Lemma candidates_filter_listing E st h dir_path prefix stdout :
  selected_host st = Some h ->
  subprocess_run E (filter_ssh_cmd E h dir_path prefix) = CompletedProcess 0 stdout ->
  candidates (fetch_and_filter_paths E st dir_path prefix)
  = omap (filter_line (startswith (dest_var st) (lit "~/")) (remote_home st))
         (split (strip stdout) newline).
Proof.
  intros Hh Hrun. unfold fetch_and_filter_paths. rewrite Hh, Hrun. simpl.
  destruct (strip stdout) as [|c r] eqn:Hs.
  - cbn [truthy candidates]. rewrite omap_filter_line.
    change (split [] newline) with [@nil N]. cbn [fmap list_fmap].
    rewrite normal_form_blank, filter_cons_False by (intros Hne; apply Hne; reflexivity).
    reflexivity.
  - cbn [truthy]. destruct (omap _ _); reflexivity.
Qed.

Lemma candidates_remote_listing E st h remote_path stdout :
  selected_host st = Some h ->
  subprocess_run E (remote_ssh_cmd E h remote_path) = CompletedProcess 0 stdout ->
  candidates (fetch_remote_paths E st remote_path)
  = omap (filter_line (startswith remote_path (lit "~/")) (remote_home st))
         (split (strip stdout) newline).
Proof.
  intros Hh Hrun. unfold fetch_remote_paths. rewrite Hh, Hrun. simpl.
  destruct (strip stdout) as [|c r] eqn:Hs.
  - cbn [truthy candidates]. rewrite omap_filter_line.
    change (split [] newline) with [@nil N]. cbn [fmap list_fmap].
    rewrite normal_form_blank, filter_cons_False by (intros Hne; apply Hne; reflexivity).
    reflexivity.
  - cbn [truthy candidates]. apply list_omap_ext, Forall2_same_length_lookup_2;
      [reflexivity|].
    intros i x y Hx Hy. rewrite Hx in Hy. injection Hy as <-.
    apply remote_line_filter_line.
Qed.

(** Against C7 as stated. The listing "/tmp/x/", "/tmp/x//" gives the
    candidate "/tmp/x/" twice, in either fetch function. *)
Lemma duplicates_survive :
  candidates
    (fetch_and_filter_paths (answering 0 (unlines [lit "/tmp/x/"; lit "/tmp/x//"]))
       (sample_dialog None (lit "/tmp/") []) (lit "/tmp/") [])
  = [lit "/tmp/x/"; lit "/tmp/x/"]
  /\ candidates
       (fetch_remote_paths (answering 0 (unlines [lit "/tmp/x/"; lit "/tmp/x//"]))
          (sample_dialog None (lit "/tmp/") []) (lit "/tmp/"))
     = [lit "/tmp/x/"; lit "/tmp/x/"]
  /\ ~ NoDup [lit "/tmp/x/"; lit "/tmp/x/"].
Proof.
  repeat split; try reflexivity.
  intros Hnd. apply NoDup_cons in Hnd as [Hnotin _]. apply Hnotin. left.
Qed.

(** C7, amended. For every remote listing output that comes with exit status
    0, the candidate list is the listing line by line and in its order: each
    line that is not blank gives one candidate, its normal form followed by
    one separator, and nothing is removed afterwards. The list holds no two
    equal candidates exactly when the normal forms of the surviving lines are
    pairwise different; two raw lines with the same normal form, such as
    "/tmp/x/" and "/tmp/x//", give the candidate twice. *)
Theorem candidates_follow_listing E st h dir_path prefix remote_path stdout :
  selected_host st = Some h ->
  (subprocess_run E (filter_ssh_cmd E h dir_path prefix)
   = CompletedProcess 0 stdout ->
   let forms :=
     filter (.≠ [])
       (normal_form (startswith (dest_var st) (lit "~/")) (remote_home st)
          <$> split (strip stdout) newline) in
   candidates (fetch_and_filter_paths E st dir_path prefix)
   = (.++ lit "/") <$> forms
   /\ (NoDup (candidates (fetch_and_filter_paths E st dir_path prefix))
       <-> NoDup forms))
  /\ (subprocess_run E (remote_ssh_cmd E h remote_path)
      = CompletedProcess 0 stdout ->
      let forms :=
        filter (.≠ [])
          (normal_form (startswith remote_path (lit "~/")) (remote_home st)
             <$> split (strip stdout) newline) in
      candidates (fetch_remote_paths E st remote_path)
      = (.++ lit "/") <$> forms
      /\ (NoDup (candidates (fetch_remote_paths E st remote_path))
          <-> NoDup forms)).
Proof.
  intros Hh. split; intros Hrun forms.
  - rewrite (candidates_filter_listing _ _ _ _ _ _ Hh Hrun), omap_filter_line.
    split; [reflexivity|]. apply (NoDup_fmap _).
  - rewrite (candidates_remote_listing _ _ _ _ _ Hh Hrun), omap_filter_line.
    split; [reflexivity|]. apply (NoDup_fmap _).
Qed.

Lemma candidates_follow_listing_witness :
  candidates
    (fetch_remote_paths
       (answering 0 (unlines [lit "/tmp/x/"; lit "/tmp/x//"; lit "/tmp/y//"]))
       (sample_dialog None (lit "/tmp/") []) (lit "/tmp/"))
  = (.++ lit "/") <$> [lit "/tmp/x"; lit "/tmp/x"; lit "/tmp/y"].
Proof.
  pose proof (candidates_follow_listing
                (answering 0 (unlines [lit "/tmp/x/"; lit "/tmp/x//"; lit "/tmp/y//"]))
                (sample_dialog None (lit "/tmp/") []) sample_host
                (lit "/tmp/") [] (lit "/tmp/")
                (unlines [lit "/tmp/x/"; lit "/tmp/x//"; lit "/tmp/y//"])
                eq_refl) as (_ & H2).
  destruct (H2 eq_refl) as (Hc & _). exact Hc.
Defined.

Lemma filter_cmd_head dir_path prefix :
  lit " | head -" ++ decimal 30 `suffix_of` filter_cmd dir_path prefix.
Proof.
  unfold filter_cmd. destruct (truthy prefix).
  - exists (lit "ls -1d " ++ dir_path ++ prefix ++ lit "*/ 2>/dev/null").
    rewrite <- !app_assoc. reflexivity.
  - exists (lit "ls -1d " ++ dir_path ++ lit "*/ 2>/dev/null").
    rewrite <- !app_assoc. reflexivity.
Qed.

Lemma remote_cmd_head remote_path :
  lit " | head -" ++ decimal 20 `suffix_of` remote_cmd remote_path.
Proof.
  exists (lit "ls -1dp " ++ remote_path ++ lit "*/ 2>/dev/null").
  unfold remote_cmd. rewrite <- !app_assoc. reflexivity.
Qed.


End Listing.

(** ** The destination of a moved file *)

Section Destination.

Implicit Types (fs : filesystem) (dir base ext filename destination : str).

Lemma os_path_exists_true fs p : os_path_exists fs p = true <-> is_Some (fs !! p).
Proof. unfold os_path_exists. apply bool_decide_eq_true. Qed.

Lemma os_path_exists_false fs p : os_path_exists fs p = false <-> fs !! p = None.
Proof.
  unfold os_path_exists. rewrite bool_decide_eq_false.
  rewrite <- eq_None_not_Some. reflexivity.
Qed.

Lemma uint_str_inj (d d' : Decimal.uint) : uint_str d = uint_str d' -> d = d'.
Proof.
  revert d'. induction d as [|d IH|d IH|d IH|d IH|d IH|d IH|d IH|d IH|d IH|d IH];
    intros [|d'|d'|d'|d'|d'|d'|d'|d'|d'|d']; cbn [uint_str]; intros H;
    try reflexivity; try discriminate H;
    injection H as H; f_equal; apply IH, H.
Qed.

Lemma decimal_inj (m n : nat) : decimal m = decimal n -> m = n.
Proof. intros H%uint_str_inj. apply Unsigned.to_uint_inj, H. Qed.

Lemma numbered_inj base ext (m n : nat) :
  numbered base m ext = numbered base n ext -> m = n.
Proof.
  unfold numbered. intros H.
  apply app_inv_head, app_inv_head, app_inv_tail in H. apply decimal_inj, H.
Qed.

(** Joining the numbered names to the directory puts the same, possibly
    empty, string in front of each of them. *)
Lemma os_path_join_numbered dir base ext :
  exists front, forall n,
    os_path_join dir (numbered base n ext) = front ++ numbered base n ext.
Proof.
  unfold os_path_join, numbered. rewrite lit_sep.
  destruct base as [|b base'].
  - exists (if negb (truthy dir) || endswith dir [sep] then dir else dir ++ [sep]).
    intros n. cbn [app lit]. simpl startswith.
    destruct (decimal n ++ ext); simpl;
      destruct (negb (truthy dir) || endswith dir [sep]);
      rewrite <- ?app_assoc; reflexivity.
  - destruct (b =? sep) eqn:Hb.
    + exists []. intros n. cbn [app startswith].
      rewrite N.eqb_sym, Hb. simpl. destruct (base' ++ _); reflexivity.
    + exists (if negb (truthy dir) || endswith dir [sep] then dir else dir ++ [sep]).
      intros n. cbn [app startswith]. rewrite N.eqb_sym, Hb. simpl.
      destruct (negb (truthy dir) || endswith dir [sep]);
        rewrite <- ?app_assoc; reflexivity.
Qed.

Lemma os_path_join_numbered_inj dir base ext (m n : nat) :
  os_path_join dir (numbered base m ext) = os_path_join dir (numbered base n ext) ->
  m = n.
Proof.
  destruct (os_path_join_numbered dir base ext) as [front Hfront].
  rewrite !Hfront. intros H%app_inv_head. apply numbered_inj in H. exact H.
Qed.

(** Distinct paths that all exist are no more than the file system holds. *)
Lemma existing_paths_bounded fs (l : list str) :
  NoDup l -> (forall p, p ∈ l -> is_Some (fs !! p)) -> (length l <= size fs)%nat.
Proof.
  intros Hnd Hin.
  rewrite <- (length_map_to_list fs), <- (length_fmap fst).
  apply submseteq_length, NoDup_submseteq; [exact Hnd|].
  intros p [e He]%Hin. apply list_elem_of_fmap. exists (p, e).
  split; [reflexivity|]. apply elem_of_map_to_list, He.
Qed.

(** What the loop returns: the path it was entered with when that is free,
    else the first free numbered name from [counter] on. *)
Lemma while_exists_Some fuel fs dir base ext destination counter d :
  while_exists fuel fs dir base ext destination counter = Some d ->
  (fs !! destination = None /\ d = destination)
  \/ (is_Some (fs !! destination)
      /\ exists N, (counter <= N)%nat
           /\ d = os_path_join dir (numbered base N ext)
           /\ fs !! d = None
           /\ forall j, (counter <= j < N)%nat ->
                is_Some (fs !! os_path_join dir (numbered base j ext))).
Proof.
  revert destination counter.
  induction fuel as [|fuel IH]; intros destination counter; simpl; [discriminate|].
  destruct (os_path_exists fs destination) eqn:Hex.
  - apply os_path_exists_true in Hex. intros Hrec. right. split; [exact Hex|].
    destruct (IH _ _ Hrec) as [[Hfree ->]|[Hbusy (N & HN & -> & Hfree & Hbelow)]].
    + exists counter. split; [lia|]. split; [reflexivity|]. split; [exact Hfree|].
      intros j Hj. lia.
    + exists N. split; [lia|]. split; [reflexivity|]. split; [exact Hfree|].
      intros j Hj. destruct (decide (j = counter)) as [->|Hne]; [exact Hbusy|].
      apply Hbelow. lia.
  - apply os_path_exists_false in Hex. intros [= <-]. left. split; [exact Hex|reflexivity].
Qed.

(** When the fuel runs out, every path that was tested exists. *)
Lemma while_exists_None fuel fs dir base ext destination counter :
  while_exists (S fuel) fs dir base ext destination counter = None ->
  is_Some (fs !! destination)
  /\ forall j, (counter <= j < counter + fuel)%nat ->
       is_Some (fs !! os_path_join dir (numbered base j ext)).
Proof.
  revert destination counter.
  induction fuel as [|fuel IH]; intros destination counter.
  - simpl. destruct (os_path_exists fs destination) eqn:Hex; [|discriminate].
    intros _. split; [apply os_path_exists_true, Hex|]. intros j Hj. lia.
  - cbn [while_exists].
    destruct (os_path_exists fs destination) eqn:Hex; [|discriminate].
    intros Hrec. split; [apply os_path_exists_true, Hex|].
    destruct (IH _ _ Hrec) as [Hfirst Hrest].
    intros j Hj. destruct (decide (j = counter)) as [->|Hne]; [exact Hfirst|].
    apply Hrest. lia.
Qed.

(** Enough fuel: more tests than the file system has entries. *)
Lemma while_exists_fuel fuel fs dir base ext destination counter :
  (size fs + 2 <= fuel)%nat ->
  is_Some (while_exists fuel fs dir base ext destination counter).
Proof.
  intros Hfuel. destruct fuel as [|fuel]; [lia|].
  destruct (while_exists (S fuel) fs dir base ext destination counter) eqn:Hw;
    [eauto|exfalso].
  apply while_exists_None in Hw as [_ Hall].
  assert (length ((fun j => os_path_join dir (numbered base j ext))
                    <$> seq counter fuel) <= size fs)%nat as Hle.
  { apply existing_paths_bounded.
    - apply NoDup_fmap_2_strong; [|apply NoDup_seq].
      intros m n _ _. apply os_path_join_numbered_inj.
    - intros p (j & -> & Hj)%list_elem_of_fmap. apply Hall.
      apply elem_of_seq in Hj. lia. }
  rewrite length_fmap, length_seq in Hle. lia.
Qed.

(** The destination chosen for a file name: free, the plain name when that
    is free, else the numbered name with the least counter from 1 on. *)
Lemma unique_destination_spec fuel fs dir filename :
  (size fs + 2 <= fuel)%nat ->
  exists destination,
    unique_destination fuel fs dir filename = Some destination
    /\ fs !! destination = None
    /\ (fs !! os_path_join dir filename = None ->
        destination = os_path_join dir filename)
    /\ (is_Some (fs !! os_path_join dir filename) ->
        exists N, (1 <= N)%nat
          /\ destination
             = os_path_join dir
                 (numbered (os_path_splitext filename).1 N
                           (os_path_splitext filename).2)
          /\ forall j, (1 <= j < N)%nat ->
               is_Some (fs !! os_path_join dir
                                (numbered (os_path_splitext filename).1 j
                                          (os_path_splitext filename).2))).
Proof.
  intros Hfuel. unfold unique_destination.
  destruct (os_path_exists fs (os_path_join dir filename)) eqn:Hex.
  - apply os_path_exists_true in Hex.
    destruct (os_path_splitext filename) as [base ext]. cbn [fst snd].
    destruct (while_exists_fuel fuel fs dir base ext (os_path_join dir filename) 1
                Hfuel) as [d Hd].
    exists d. split; [exact Hd|].
    destruct (while_exists_Some _ _ _ _ _ _ _ _ Hd)
      as [[Hfree _]|[_ (N & HN & -> & Hfree & Hbelow)]].
    + rewrite Hfree in Hex. destruct Hex; discriminate.
    + split; [exact Hfree|]. split.
      * intros Hnone. rewrite Hnone in Hex. destruct Hex; discriminate.
      * intros _. exists N. split; [exact HN|]. split; [reflexivity|exact Hbelow].
  - apply os_path_exists_false in Hex. exists (os_path_join dir filename).
    split; [reflexivity|]. split; [exact Hex|]. split; [reflexivity|].
    intros [e He]. congruence.
Qed.

End Destination.

(** ** Moving into the import directory *)

Section ImportDirectory.

Implicit Types (fs : filesystem) (A : answers) (p : str).

Lemma mkdir_if_absent_keeps d fs p e :
  fs !! p = Some e -> mkdir_if_absent d fs !! p = Some e.
Proof.
  intros Hp. unfold mkdir_if_absent. destruct (fs !! d) eqn:Hd; [exact Hp|].
  rewrite lookup_insert_ne; [exact Hp|]. intros ->. congruence.
Qed.

Lemma os_makedirs_keeps name fs fs1 p e :
  os_makedirs name fs = Some fs1 -> fs !! p = Some e -> fs1 !! p = Some e.
Proof.
  unfold os_makedirs. destruct (existsb _ _); [discriminate|].
  intros [= <-] Hp. induction (lineage name) as [|d l IH]; [exact Hp|].
  simpl. apply mkdir_if_absent_keeps, IH.
Qed.



End ImportDirectory.

(** ** The SSH configuration parser *)

Section SshConfigFacts.

Implicit Types (U : users) (h : host) (hosts : list host) (line : str)
  (lines : list str) (current_host : option host).

Lemma find_sub_startswith (s sub : str) :
  startswith s sub = true -> find_sub s sub = Some O.
Proof. intros H. destruct s; cbn [find_sub]; rewrite H; reflexivity. Qed.

Lemma after_first_startswith (s sub : str) :
  startswith s sub = true -> after_first s sub = Some (drop (length sub) s).
Proof.
  intros H. unfold after_first. rewrite (find_sub_startswith _ _ H). reflexivity.
Qed.

Lemma flush_app hosts0 hosts current_host :
  flush (hosts0 ++ hosts) current_host = hosts0 ++ flush hosts current_host.
Proof. destruct current_host; simpl; [symmetry; apply app_assoc|reflexivity]. Qed.

(** What one line does to the hosts gathered so far, the current one
    included: it adds the name it declares and nothing else. *)
Lemma parse_line_names U hosts current_host line :
  exists hosts' current_host',
    parse_line U (hosts, current_host) line = Some (hosts', current_host')
    /\ name <$> flush hosts' current_host'
       = (name <$> flush hosts current_host)
         ++ option_list (declared_name line).
Proof.
  unfold parse_line, declared_name.
  destruct (truthy (strip line)) eqn:Ht; cbn [negb orb andb].
  2:{ exists hosts, current_host. rewrite app_nil_r. split; reflexivity. }
  destruct (startswith (strip line) (lit "#")) eqn:Hc; cbn [negb orb andb].
  { exists hosts, current_host. rewrite app_nil_r. split; reflexivity. }
  destruct (startswith (strip line) (lit "Host ")) eqn:Hh.
  - rewrite (after_first_startswith _ _ Hh). cbn [mbind option_bind].
    change (length (lit "Host ")) with 5%nat.
    destruct (negb (mem 42 _) && negb (mem 63 _)).
    + eexists _, _. split; [reflexivity|]. cbn [flush option_list].
      rewrite fmap_app. reflexivity.
    + eexists _, _. split; [reflexivity|]. cbn [flush option_list].
      rewrite app_nil_r. reflexivity.
  - rewrite app_nil_r. destruct current_host as [h|]; [|eauto].
    destruct (startswith (strip line) (lit "HostName ")) eqn:H1.
    { rewrite (after_first_startswith _ _ H1). cbn [mbind option_bind].
      eexists _, _. split; [reflexivity|]. cbn [flush]. rewrite !fmap_app.
      reflexivity. }
    destruct (startswith (strip line) (lit "User ")) eqn:H2.
    { rewrite (after_first_startswith _ _ H2). cbn [mbind option_bind].
      eexists _, _. split; [reflexivity|]. cbn [flush]. rewrite !fmap_app.
      reflexivity. }
    destruct (startswith (strip line) (lit "IdentityFile ")) eqn:H3.
    { rewrite (after_first_startswith _ _ H3). cbn [mbind option_bind].
      eexists _, _. split; [reflexivity|]. cbn [flush]. rewrite !fmap_app.
      reflexivity. }
    eauto.
Qed.

Lemma parse_lines_names U hosts current_host lines :
  exists hosts' current_host',
    parse_lines U (hosts, current_host) lines = Some (hosts', current_host')
    /\ name <$> flush hosts' current_host'
       = (name <$> flush hosts current_host) ++ omap declared_name lines.
Proof.
  revert hosts current_host.
  induction lines as [|line lines IH]; intros hosts current_host.
  - exists hosts, current_host. rewrite app_nil_r. split; reflexivity.
  - destruct (parse_line_names U hosts current_host line)
      as (hosts1 & current1 & Hline & Hnames1).
    destruct (IH hosts1 current1) as (hosts2 & current2 & Hrest & Hnames2).
    exists hosts2, current2. cbn [parse_lines]. rewrite Hline.
    cbn [mbind option_bind]. split; [exact Hrest|].
    rewrite Hnames2, Hnames1, <- app_assoc. f_equal.
    cbn [omap list_omap]. destruct (declared_name line); reflexivity.
Qed.

(** The hosts already gathered stay in front, untouched. *)
Lemma parse_line_app U hosts0 hosts current_host line :
  parse_line U (hosts0 ++ hosts, current_host) line
  = (fun state => (hosts0 ++ state.1, state.2))
      <$> parse_line U (hosts, current_host) line.
Proof.
  unfold parse_line.
  destruct (negb (truthy (strip line)) || startswith (strip line) (lit "#"));
    [reflexivity|].
  destruct (startswith (strip line) (lit "Host ")).
  - destruct (after_first _ _) as [v|]; [|reflexivity]. cbn [mbind option_bind].
    rewrite flush_app. destruct (_ && _); reflexivity.
  - destruct current_host as [h|]; [|reflexivity].
    repeat (match goal with
            | |- context [if ?b then _ else _] => destruct b
            end;
            [destruct (after_first _ _); reflexivity|]).
    reflexivity.
Qed.

Lemma parse_lines_app U hosts0 hosts current_host lines :
  parse_lines U (hosts0 ++ hosts, current_host) lines
  = (fun state => (hosts0 ++ state.1, state.2))
      <$> parse_lines U (hosts, current_host) lines.
Proof.
  revert hosts current_host.
  induction lines as [|line lines IH]; intros hosts current_host; [reflexivity|].
  cbn [parse_lines]. rewrite parse_line_app.
  destruct (parse_line U (hosts, current_host) line) as [[hosts1 current1]|];
    [|reflexivity].
  cbn [fmap option_fmap option_map mbind option_bind fst snd]. apply IH.
Qed.

Lemma declared_name_no_wildcard line host_name :
  declared_name line = Some host_name ->
  mem 42 host_name = false /\ mem 63 host_name = false.
Proof.
  unfold declared_name. destruct (_ && _ && _); [|discriminate].
  destruct (mem 42 _) eqn:H1, (mem 63 _) eqn:H2; cbn [negb andb];
    try discriminate.
  intros [= <-]. split; assumption.
Qed.

Lemma parse_from_empty U lines :
  exists new,
    parse U (Some lines) [] = Some (new, new)
    /\ name <$> new = omap declared_name lines.
Proof.
  destruct (parse_lines_names U [] None lines)
    as (hosts' & current' & Hparse & Hnames).
  exists (flush hosts' current'). split; [|exact Hnames].
  unfold parse. rewrite Hparse. reflexivity.
Qed.

Lemma parse_after U lines new hosts :
  parse U (Some lines) [] = Some (new, new) ->
  parse U (Some lines) hosts = Some (hosts ++ new, hosts ++ new).
Proof.
  unfold parse. rewrite <- (app_nil_r hosts) at 1. rewrite parse_lines_app.
  destruct (parse_lines U ([], None) lines) as [[hosts' current']|];
    [|discriminate].
  cbn. intros [= <-]. rewrite flush_app. reflexivity.
Qed.

(** X1. [SSHConfigParser.parse] never fails on the lines of a configuration
    file. It returns the hosts the parser held before followed by one host
    for each [Host] line without wildcard, in the order of the file and
    under the name that line declares; no returned name holds '*' or '?'. *)
Theorem parse_declared_hosts U lines hosts :
  exists new,
    parse U (Some lines) hosts = Some (hosts ++ new, hosts ++ new)
    /\ parse U (Some lines) [] = Some (new, new)
    /\ name <$> new = omap declared_name lines
    /\ Forall (fun h => mem 42 (name h) = false /\ mem 63 (name h) = false) new.
Proof.
  destruct (parse_from_empty U lines) as (new & Hempty & Hnames).
  exists new.
  split; [|split; [exact Hempty|split; [exact Hnames|]]].
  - apply parse_after, Hempty.
  - apply Forall_forall. intros h Hh.
    assert (name h ∈ omap declared_name lines) as Hin.
    { rewrite <- Hnames. apply list_elem_of_fmap. eauto. }
    apply list_elem_of_omap in Hin as (line & _ & Hline).
    exact (declared_name_no_wildcard _ _ Hline).
Qed.

(** X2. A parser object keeps its hosts between calls: parsing the same file a
    second time returns every host twice, and when the file is missing the
    call returns an empty list while the parser still holds its hosts. *)
Theorem parse_accumulates U lines new hosts :
  parse U (Some lines) [] = Some (new, new) ->
  parse U (Some lines) new = Some (new ++ new, new ++ new)
  /\ parse U None hosts = Some ([], hosts).
Proof.
  intros Hfirst. split; [|reflexivity]. apply parse_after, Hfirst.
Qed.

Lemma startswith_same_head (s p q : str) (a b : N) :
  startswith s (a :: p) = true -> startswith s (b :: q) = true -> a = b.
Proof.
  destruct s as [|c s]; [discriminate|]. cbn [startswith].
  intros [Ha _]%andb_prop [Hb _]%andb_prop.
  apply N.eqb_eq in Ha, Hb. congruence.
Qed.

Lemma latest_cons old (o : option str) (values : list str) :
  latest old (option_list o ++ values)
  = latest (match o with Some v => Some v | None => old end) values.
Proof.
  unfold latest. destruct o as [v|]; [|reflexivity].
  change (option_list (Some v) ++ values) with (v :: values).
  rewrite last_cons. destruct (last values); reflexivity.
Qed.

(** A line that is no [Host] line changes at most one field of the current
    host, the one whose directive it is. *)
Lemma parse_line_directive U hosts h line :
  startswith (strip line) (lit "Host ") = false ->
  exists h',
    parse_line U (hosts, Some h) line = Some (hosts, Some h')
    /\ name h' = name h
    /\ hostname h'
       = match directive (lit "HostName ") line with
         | Some v => Some v | None => hostname h end
    /\ user h'
       = match directive (lit "User ") line with
         | Some v => Some v | None => user h end
    /\ identity_file h'
       = match directive (lit "IdentityFile ") line with
         | Some v => Some (os_path_expanduser U v) | None => identity_file h end.
Proof.
  intros Hhost. unfold parse_line, directive. rewrite Hhost.
  destruct (truthy (strip line)); cbn [negb orb andb]; [|exists h; auto].
  destruct (startswith (strip line) (lit "#")); cbn [negb orb andb];
    [exists h; auto|].
  destruct (startswith (strip line) (lit "HostName ")) eqn:H1.
  { rewrite (after_first_startswith _ _ H1). cbn [mbind option_bind].
    destruct (startswith (strip line) (lit "User ")) eqn:H2;
      [pose proof (startswith_same_head _ _ _ _ _ H1 H2); discriminate|].
    destruct (startswith (strip line) (lit "IdentityFile ")) eqn:H3;
      [pose proof (startswith_same_head _ _ _ _ _ H1 H3); discriminate|].
    eexists. split; [reflexivity|]. repeat split. }
  destruct (startswith (strip line) (lit "User ")) eqn:H2.
  { rewrite (after_first_startswith _ _ H2). cbn [mbind option_bind].
    destruct (startswith (strip line) (lit "IdentityFile ")) eqn:H3;
      [pose proof (startswith_same_head _ _ _ _ _ H2 H3); discriminate|].
    eexists. split; [reflexivity|]. repeat split. }
  destruct (startswith (strip line) (lit "IdentityFile ")) eqn:H3.
  { rewrite (after_first_startswith _ _ H3). cbn [mbind option_bind].
    eexists. split; [reflexivity|]. repeat split. }
  exists h. auto.
Qed.

Lemma parse_lines_directives U hosts h body :
  Forall (fun line => startswith (strip line) (lit "Host ") = false) body ->
  exists h',
    parse_lines U (hosts, Some h) body = Some (hosts, Some h')
    /\ name h' = name h
    /\ hostname h' = latest (hostname h) (omap (directive (lit "HostName ")) body)
    /\ user h' = latest (user h) (omap (directive (lit "User ")) body)
    /\ identity_file h'
       = latest (identity_file h)
           (os_path_expanduser U <$> omap (directive (lit "IdentityFile ")) body).
Proof.
  intros Hbody. revert h.
  induction Hbody as [|line body Hline _ IH]; intros h.
  - exists h. repeat split.
  - destruct (parse_line_directive U hosts h line Hline)
      as (h1 & Hstep & Hn1 & Hh1 & Hu1 & Hi1).
    destruct (IH h1) as (h2 & Hrest & Hn2 & Hh2 & Hu2 & Hi2).
    exists h2. cbn [parse_lines]. rewrite Hstep. cbn [mbind option_bind].
    split; [exact Hrest|]. split; [congruence|].
    assert (forall key, omap (directive key) (line :: body)
                        = option_list (directive key line) ++ omap (directive key) body)
      as Homap.
    { intros key. cbn [omap list_omap]. destruct (directive key line); reflexivity. }
    split; [rewrite Homap, latest_cons, Hh2, Hh1; reflexivity|].
    split; [rewrite Homap, latest_cons, Hu2, Hu1; reflexivity|].
    rewrite Homap, fmap_app, Hi2, Hi1.
    destruct (directive (lit "IdentityFile ") line) as [v|]; [|reflexivity].
    change (os_path_expanduser U <$> option_list (Some v))
      with (option_list (Some (os_path_expanduser U v))).
    rewrite latest_cons. reflexivity.
Qed.

(** X3. Within the block of one host the last [HostName], [User] and
    [IdentityFile] line wins, the latter with its tilde expanded; a field
    without a line stays [None]. *)
Theorem parse_last_directive_wins U host_line body host_name :
  declared_name host_line = Some host_name ->
  Forall (fun line => startswith (strip line) (lit "Host ") = false) body ->
  exists h,
    parse U (Some (host_line :: body)) [] = Some ([h], [h])
    /\ name h = host_name
    /\ hostname h = last (omap (directive (lit "HostName ")) body)
    /\ user h = last (omap (directive (lit "User ")) body)
    /\ identity_file h
       = os_path_expanduser U <$> last (omap (directive (lit "IdentityFile ")) body).
Proof.
  intros Hname Hbody.
  assert (parse_line U ([], None) host_line
          = Some ([], Some (Host host_name None None None))) as Hfirst.
  { revert Hname. unfold declared_name, parse_line.
    destruct (truthy (strip host_line)); cbn [negb orb andb]; [|discriminate].
    destruct (startswith (strip host_line) (lit "#")); cbn [negb orb andb];
      [discriminate|].
    destruct (startswith (strip host_line) (lit "Host ")) eqn:Hh; [|discriminate].
    rewrite (after_first_startswith _ _ Hh). cbn [mbind option_bind flush].
    change (length (lit "Host ")) with 5%nat.
    destruct (_ && _); [|discriminate]. intros [= <-]. reflexivity. }
  destruct (parse_lines_directives U [] (Host host_name None None None) body Hbody)
    as (h & Hrest & Hn & Hh & Hu & Hi).
  exists h. unfold parse. cbn [parse_lines]. rewrite Hfirst.
  cbn [mbind option_bind]. rewrite Hrest. cbn.
  split; [reflexivity|]. split; [exact Hn|].
  rewrite Hh, Hu, Hi. unfold latest. cbn [hostname user identity_file].
  repeat split.
  - destruct (last _); reflexivity.
  - destruct (last _); reflexivity.
  - rewrite fmap_last. destruct (last _); reflexivity.
Qed.

Lemma parse_last_directive_wins_witness :
  exists h,
    parse (Users (Some (lit "/Users/a")) (fun _ => None))
      (Some [lit "Host web"; lit "  HostName a.example"; lit "  User bob";
             lit "  HostName b.example"; lit "  IdentityFile ~/.ssh/id"]) []
    = Some ([h], [h])
    /\ name h = lit "web"
    /\ hostname h = Some (lit "b.example")
    /\ user h = Some (lit "bob")
    /\ identity_file h = Some (lit "/Users/a/.ssh/id").
Proof.
  apply (parse_last_directive_wins (Users (Some (lit "/Users/a")) (fun _ => None))
           (lit "Host web")
           [lit "  HostName a.example"; lit "  User bob";
            lit "  HostName b.example"; lit "  IdentityFile ~/.ssh/id"]
           (lit "web")).
  - reflexivity.
  - repeat constructor.
Defined.

Lemma parse_accumulates_witness :
  parse (Users None (fun _ => None)) (Some [lit "Host web"; lit "Host db"])
    [Host (lit "web") None None None; Host (lit "db") None None None]
  = Some ([Host (lit "web") None None None; Host (lit "db") None None None;
           Host (lit "web") None None None; Host (lit "db") None None None],
          [Host (lit "web") None None None; Host (lit "db") None None None;
           Host (lit "web") None None None; Host (lit "db") None None None]).
Proof.
  apply (parse_accumulates (Users None (fun _ => None))
           [lit "Host web"; lit "Host db"]
           [Host (lit "web") None None None; Host (lit "db") None None None] []).
  reflexivity.
Defined.

End SshConfigFacts.

(** ** Typing, selecting and the queries they start *)

Section Queries.

Implicit Types (E : env) (st : dialog) (s p : str) (c : N).

Lemma mem_app c s p : mem c (s ++ p) = mem c s || mem c p.
Proof. unfold mem. apply existsb_app. Qed.

(** [rfind] finds the last occurrence, when there is one. *)
Lemma rfind_from_spec (i : Z) s c :
  (0 <= i)%Z ->
  (mem c s = false /\ rfind_from i s c = (-1)%Z)
  \/ (exists k : nat,
        rfind_from i s c = (i + Z.of_nat k)%Z
        /\ s !! k = Some c
        /\ mem c (drop (S k) s) = false).
Proof.
  revert i. induction s as [|x s IH]; intros i Hi; [left; split; reflexivity|].
  cbn [rfind_from].
  destruct (IH (i + 1)%Z ltac:(lia)) as [[Hno Hr]|(k & Hr & Hk & Hafter)].
  - rewrite Hr. change (0 <=? -1)%Z with false. cbv iota.
    unfold mem in *. cbn [existsb]. rewrite Hno, orb_false_r, N.eqb_sym.
    destruct (N.eqb_spec x c) as [->|Hne].
    + right. exists O. split; [f_equal; lia|]. split; [reflexivity|exact Hno].
    + left. split; reflexivity.
  - right. exists (S k). rewrite Hr.
    destruct (Z.leb_spec 0 (i + 1 + Z.of_nat k)); [|lia].
    split; [lia|]. split; [exact Hk|exact Hafter].
Qed.

Lemma rfind_found s c :
  mem c s = true ->
  exists k : nat,
    rfind s c = Z.of_nat k /\ s !! k = Some c /\ mem c (drop (S k) s) = false.
Proof.
  intros Hmem. destruct (rfind_from_spec 0 s c ltac:(lia))
    as [[Hno _]|(k & Hr & Hk & Hafter)]; [congruence|].
  exists k. split; [exact Hr|]. split; assumption.
Qed.

Lemma endswith_sep s : endswith s (lit "/") = true <-> last s = Some sep.
Proof.
  unfold endswith. rewrite lit_sep, <- head_reverse.
  change (reverse [sep]) with [sep].
  destruct (reverse s) as [|x r]; cbn [startswith head]; [split; discriminate|].
  destruct (N.eqb_spec sep x) as [<-|Hne]; cbn [andb].
  - split; [reflexivity|]. intros _. destruct r; reflexivity.
  - split; [discriminate|]. intros [= ->]. congruence.
Qed.

Lemma startswith_nil_r s : startswith s [] = true.
Proof. destruct s; reflexivity. Qed.

Lemma startswith_mem s c p : startswith s (c :: p) = true -> mem c s = true.
Proof.
  destruct s as [|x s]; [discriminate|]. cbn [startswith].
  intros [Hc _]%andb_prop. unfold mem. cbn [existsb]. rewrite Hc. reflexivity.
Qed.

(** Without rewriting the task does not depend on the cache. *)
Lemma fetch_and_filter_not_tilde E st dir_path prefix :
  startswith (dest_var st) (lit "~/") = false ->
  fetch_and_filter_paths E st dir_path prefix
  = fetch_and_filter_paths E (set_remote_home st None) dir_path prefix.
Proof.
  intros Hut. unfold fetch_and_filter_paths. simpl.
  destruct (selected_host st) as [h|]; [|reflexivity].
  rewrite Hut. destruct (subprocess_run E _) as [rc out|e]; [|reflexivity].
  destruct (_ && _); [|reflexivity].
  rewrite omap_filter_line_false. reflexivity.
Qed.

(** X4. [on_dest_typing] starts a listing exactly for a key that is not ignored
    on a field that is not empty. The text is split after its last
    separator: the two parts put together give the text again, the first
    ends with the separator and the second holds none; a text without
    separator is looked up in "~/". Either way the remote command lists
    the directories matching the pattern built from both parts. *)
Theorem on_dest_typing_query st keysym :
  (on_dest_typing st keysym = None
   <-> keysym ∈ ignored_keysyms \/ dest_var st = [])
  /\ forall dir_path prefix,
       on_dest_typing st keysym = Some (dir_path, prefix) ->
       last dir_path = Some sep
       /\ mem sep prefix = false
       /\ (if mem sep (dest_var st) then dir_path ++ prefix = dest_var st
           else dir_path = lit "~/" /\ prefix = dest_var st)
       /\ filter_cmd dir_path prefix
          = lit "ls -1d " ++ dir_path ++ prefix ++ lit "*/ 2>/dev/null | head -30".
Proof.
  unfold on_dest_typing. split.
  - destruct (bool_decide (keysym ∈ ignored_keysyms)) eqn:Hk.
    + apply bool_decide_eq_true in Hk. split; auto.
    + apply bool_decide_eq_false in Hk.
      destruct (dest_var st) as [|x text]; cbn [truthy].
      * split; auto.
      * destruct (mem sep (x :: text)); split; try discriminate;
          intros [Hin|Hnil]; [contradiction|discriminate
                             |contradiction|discriminate].
  - intros dir_path prefix.
    destruct (bool_decide _); [discriminate|].
    destruct (truthy (dest_var st)) eqn:Ht; [|discriminate].
    assert (forall d q, filter_cmd d q
              = lit "ls -1d " ++ d ++ q ++ lit "*/ 2>/dev/null | head -30") as Hcmd.
    { intros d q. unfold filter_cmd. destruct q; reflexivity. }
    destruct (mem sep (dest_var st)) eqn:Hmem.
    + destruct (rfind_found _ _ Hmem) as (k & Hr & Hk & Hafter).
      rewrite Hr. replace (Z.to_nat (Z.of_nat k + 1)) with (S k) by lia.
      intros [= <- <-]. split; [|split; [exact Hafter|split; [|apply Hcmd]]].
      * rewrite (take_S_r _ _ _ Hk). apply last_snoc.
      * apply take_drop.
    + intros [= <- <-]. split; [reflexivity|].
      split; [exact Hmem|]. split; [split; reflexivity|apply Hcmd].
Qed.

Lemma on_dest_typing_query_witness :
  last (lit "/var/") = Some sep
  /\ mem sep (lit "lo") = false
  /\ (if mem sep (lit "/var/lo") then lit "/var/" ++ lit "lo" = lit "/var/lo"
      else lit "/var/" = lit "~/" /\ lit "lo" = lit "/var/lo")
  /\ filter_cmd (lit "/var/") (lit "lo")
     = lit "ls -1d " ++ lit "/var/" ++ lit "lo" ++ lit "*/ 2>/dev/null | head -30".
Proof.
  destruct (on_dest_typing_query (sample_dialog None (lit "/var/lo") []) (lit "o"))
    as [_ H].
  apply (H (lit "/var/") (lit "lo")). reflexivity.
Defined.

(** X5. A word typed without any separator is listed under "~/", but since the
    field does not start with "~/" its candidates are never rewritten to the
    home shorthand: the task ends as it would with an empty cache. *)
Theorem on_dest_typing_bare_word E st keysym dir_path prefix :
  mem sep (dest_var st) = false ->
  on_dest_typing st keysym = Some (dir_path, prefix) ->
  dir_path = lit "~/"
  /\ fetch_and_filter_paths E st dir_path prefix
     = fetch_and_filter_paths E (set_remote_home st None) dir_path prefix.
Proof.
  intros Hmem Htyped. split.
  - revert Htyped. unfold on_dest_typing. rewrite Hmem.
    destruct (bool_decide _); [discriminate|].
    destruct (truthy _); [|discriminate]. intros [= <- _]. reflexivity.
  - apply fetch_and_filter_not_tilde.
    destruct (startswith (dest_var st) (lit "~/")) eqn:Hs; [|reflexivity].
    change (lit "~/") with ([tilde] ++ [sep]) in Hs.
    apply startswith_inv in Hs. rewrite Hs, <- app_assoc, !mem_app in Hmem.
    cbn in Hmem. discriminate.
Qed.

Lemma on_dest_typing_bare_word_witness :
  lit "~/" = lit "~/"
  /\ fetch_and_filter_paths
       (answering 0 (unlines [lit "/home/alice/docs/"]))
       (sample_dialog (Some (lit "/home/alice")) (lit "do") []) (lit "~/") (lit "do")
     = fetch_and_filter_paths
         (answering 0 (unlines [lit "/home/alice/docs/"]))
         (set_remote_home (sample_dialog (Some (lit "/home/alice")) (lit "do") [])
            None)
         (lit "~/") (lit "do").
Proof.
  apply (on_dest_typing_bare_word
           (answering 0 (unlines [lit "/home/alice/docs/"]))
           (sample_dialog (Some (lit "/home/alice")) (lit "do") []) (lit "o")
           (lit "~/") (lit "do")); reflexivity.
Defined.

(** X6. [on_dest_selected] leaves an empty field alone and starts nothing;
    otherwise the field ends with the separator afterwards, the stored
    candidates are untouched, the listing is started for the text of the
    field, and selecting again changes nothing more. *)
Theorem on_dest_selected_normalizes st :
  (dest_var st = [] -> on_dest_selected st = (st, None))
  /\ (dest_var st <> [] ->
      (on_dest_selected st).2 = Some (dest_var (on_dest_selected st).1)
      /\ last (dest_var (on_dest_selected st).1) = Some sep
      /\ (last (dest_var st) = Some sep -> (on_dest_selected st).1 = st)
      /\ destination_paths (on_dest_selected st).1 = destination_paths st
      /\ dest_combo_values (on_dest_selected st).1 = dest_combo_values st
      /\ on_dest_selected (on_dest_selected st).1 = on_dest_selected st).
Proof.
  unfold on_dest_selected. split.
  - intros ->. reflexivity.
  - intros Hne. apply truthy_true in Hne. rewrite Hne.
    destruct (endswith (dest_var st) (lit "/")) eqn:He; cbn [negb fst snd].
    + rewrite Hne, He. apply endswith_sep in He. repeat split; auto.
    + assert (endswith (dest_var st ++ lit "/") (lit "/") = true) as He'.
      { apply endswith_sep. rewrite lit_sep. apply last_snoc. }
      cbn [set_dest_var dest_var destination_paths dest_combo_values].
      rewrite He'. cbn [negb]. rewrite lit_sep, last_snoc.
      split; [reflexivity|]. split; [reflexivity|]. split.
      * intros Hl. apply endswith_sep in Hl. congruence.
      * split; [reflexivity|]. split; [reflexivity|].
        destruct (dest_var st); reflexivity.
Qed.

Lemma on_dest_selected_normalizes_witness :
  (on_dest_selected (sample_dialog None (lit "/srv/www") [])).2
  = Some (dest_var (on_dest_selected (sample_dialog None (lit "/srv/www") [])).1)
  /\ last (dest_var (on_dest_selected (sample_dialog None (lit "/srv/www") [])).1)
     = Some sep.
Proof.
  destruct (on_dest_selected_normalizes (sample_dialog None (lit "/srv/www") []))
    as [_ H].
  destruct H as (H1 & H2 & _); [discriminate|]. split; [exact H1|exact H2].
Defined.

End Queries.

(** ** Selecting a server and sizing the window *)

Section ServerSelection.

Implicit Types (E : env) (w : window) (h : host) (hosts : list host).

Lemma find_host_first hosts selected_name h :
  find_host hosts selected_name = Some h ->
  name h = selected_name
  /\ exists before after,
       hosts = before ++ h :: after
       /\ Forall (fun h' => name h' <> selected_name) before.
Proof.
  induction hosts as [|h0 hosts IH]; cbn [find_host]; [discriminate|].
  destruct (bool_decide (name h0 = selected_name)) eqn:Hn.
  - apply bool_decide_eq_true in Hn. intros [= <-]. split; [exact Hn|].
    exists [], hosts. split; [reflexivity|constructor].
  - apply bool_decide_eq_false in Hn. intros Hfind.
    destruct (IH Hfind) as (Hname & before & after & -> & Hbefore).
    split; [exact Hname|]. exists (h0 :: before), after.
    split; [reflexivity|]. constructor; assumption.
Qed.

Lemma find_host_none hosts selected_name :
  find_host hosts selected_name = None <->
  Forall (fun h => name h <> selected_name) hosts.
Proof.
  induction hosts as [|h0 hosts IH]; cbn [find_host]; [split; [constructor|reflexivity]|].
  destruct (bool_decide (name h0 = selected_name)) eqn:Hn.
  - apply bool_decide_eq_true in Hn. split; [discriminate|].
    intros Hall. apply Forall_cons in Hall as [Hne _]. contradiction.
  - apply bool_decide_eq_false in Hn. rewrite IH. split.
    + intros Hall. constructor; assumption.
    + intros Hall. apply Forall_cons in Hall as [_ Hall]. exact Hall.
Qed.

(** X7. [on_server_selected] takes the first offered host of the selected name.
    If there is one, the password row is shown afterwards exactly when that
    host has no identity file that exists locally, whatever was shown
    before; the completions start again from "~/", and the home directory
    and the listing of "~/" are fetched in the background, while the cache
    still holds the home directory of the server selected before. If there
    is none, no host is selected, nothing is started, and the completions
    stay as they were. *)
Theorem on_server_selected_outcome E w :
  match find_host (hosts_offered w) (server_var w) with
  | Some h =>
      name h = server_var w
      /\ selected_host (completion (on_server_selected E w).1) = Some h
      /\ password_visible (on_server_selected E w).1
         = negb (identity_usable (path_exists E) h)
      /\ destination_paths (completion (on_server_selected E w).1) = [lit "~/"]
      /\ dest_combo_values (completion (on_server_selected E w).1) = [lit "~/"]
      /\ dest_var (completion (on_server_selected E w).1) = lit "~/"
      /\ remote_home (completion (on_server_selected E w).1)
         = remote_home (completion w)
      /\ (on_server_selected E w).2
         = [thread_fetch_and_store_home; thread_fetch_remote_paths (lit "~/")]
  | None =>
      Forall (fun h => name h <> server_var w) (hosts_offered w)
      /\ (on_server_selected E w).2 = []
      /\ (on_server_selected E w).1
         = Window (set_selected_host (completion w) None) (hosts_offered w)
                  (server_var w) (password_visible w) (file_count w)
  end.
Proof.
  unfold on_server_selected.
  destruct (find_host (hosts_offered w) (server_var w)) as [h|] eqn:Hfind.
  - cbn [set_selected_host selected_host load_destination_suggestions fst snd].
    destruct (find_host_first _ _ _ Hfind) as [Hname _].
    split; [exact Hname|]. split; [reflexivity|]. split; [|repeat split].
    cbn [password_visible].
    destruct (identity_usable (path_exists E) h), (password_visible w); reflexivity.
  - cbn [set_selected_host selected_host fst snd].
    split; [apply find_host_none, Hfind|]. split; reflexivity.
Qed.

(** X8. The height [update_window_size] asks for grows with the number of files
    up to three of them and by 40 with the password row; it always lies
    between 308 and 382. The window is centred to the pixel: the margins on
    both sides differ by at most one, and the offset is not negative for a
    window that fits the screen. *)
Theorem update_window_size_bounds w (screen size : Z) :
  (308 <= window_height w <= 382)%nat
  /\ window_height w
     = (291 + 17 * Nat.min 3 (Nat.max 1 (file_count w))
        + (if password_visible w then 40 else 0))%nat
  /\ (-1 <= screen - size - 2 * centered screen size <= 1)%Z
  /\ (0 <= size <= screen -> 0 <= centered screen size)%Z.
Proof.
  unfold window_height, centered.
  split; [destruct (password_visible w); lia|].
  split; [destruct (password_visible w); lia|].
  pose proof (Z.div_mod screen 2 ltac:(lia)).
  pose proof (Z.div_mod size 2 ltac:(lia)).
  pose proof (Z.mod_pos_bound screen 2 ltac:(lia)).
  pose proof (Z.mod_pos_bound size 2 ltac:(lia)).
  split; [lia|]. intros Hfit.
  pose proof (Z.div_le_mono size screen 2 ltac:(lia) ltac:(lia)). lia.
Qed.

Lemma update_window_size_bounds_witness :
  (0 <= centered 1440 500)%Z.
Proof.
  destruct (update_window_size_bounds
              (Window initial_dialog [] [] false 2) 1440 500) as (_ & _ & _ & H).
  apply H. lia.
Defined.

End ServerSelection.

(** ** Copying with scp *)

Section Copying.

Implicit Types (S : shell) (c : config) (file_paths : list str)
  (history : list (list str)).

Lemma create_destination_caught S c history :
  raises_exceptions_only S -> (create_destination S c history).2 = None.
Proof.
  intros Hexc. unfold create_destination.
  destruct (password_needed S c).
  - destruct (run S history which_sshpass) as [rc err|e m] eqn:Hw; cbn [snd].
    + destruct (run S (history ++ [which_sshpass]) _) as [rc' err'|e m] eqn:Hm;
        [reflexivity|].
      rewrite (Hexc _ _ _ _ Hm). reflexivity.
    + rewrite (Hexc _ _ _ _ Hw). reflexivity.
  - cbn [snd]. destruct (run S history _) as [rc' err'|e m] eqn:Hm; [reflexivity|].
    rewrite (Hexc _ _ _ _ Hm). reflexivity.
Qed.

Lemma transfer_caught S file_paths c history :
  raises_exceptions_only S ->
  exists ok message, (transfer S file_paths c history).2 = Done ok message.
Proof.
  intros Hexc. unfold transfer.
  destruct (password_needed S c).
  - destruct (run S history which_sshpass) as [rc err|e m] eqn:Hw.
    + destruct (rc =? 0)%Z; cbn [snd]; [|eauto].
      destruct (run S (history ++ [which_sshpass]) _) as [rc' err'|e m] eqn:Hm.
      * destruct (negb _); eauto.
      * rewrite (Hexc _ _ _ _ Hm). eauto.
    + cbn [snd]. rewrite (Hexc _ _ _ _ Hw). eauto.
  - cbn [snd]. destruct (run S history _) as [rc' err'|e m] eqn:Hm.
    + destruct (negb _); eauto.
    + rewrite (Hexc _ _ _ _ Hm). eauto.
Qed.

(** A transfer that succeeds ran the transfer command last, and that
    command exited with status 0. *)
Lemma transfer_success S file_paths c history message :
  (transfer S file_paths c history).2 = Done true message ->
  message = lit "Files copied successfully!"
  /\ exists before stderr,
       (transfer S file_paths c history).1 = before ++ [transfer_cmd S file_paths c]
       /\ run S before (transfer_cmd S file_paths c) = Exited 0 stderr.
Proof.
  unfold transfer, transfer_cmd.
  destruct (password_needed S c).
  - destruct (run S history which_sshpass) as [rc err|e m] eqn:Hw.
    + destruct (rc =? 0)%Z; cbn [fst snd]; [|discriminate].
      destruct (run S (history ++ [which_sshpass]) _) as [rc' err'|e m] eqn:Hm.
      * destruct (Z.eqb_spec rc' 0) as [->|Hne]; cbn [negb]; [|discriminate].
        intros [= <-]. split; [reflexivity|]. eauto.
      * destruct (is_Exception e); discriminate.
    + cbn [snd]. destruct (is_Exception e); discriminate.
  - cbn [fst snd]. destruct (run S history _) as [rc' err'|e m] eqn:Hm.
    + destruct (Z.eqb_spec rc' 0) as [->|Hne]; cbn [negb]; [|discriminate].
      intros [= <-]. split; [reflexivity|]. eauto.
    + destruct (is_Exception e); discriminate.
Qed.

(** X9. As long as the shell raises nothing but exceptions of [Exception],
    [copy_files_to_server] returns its pair of a flag and a message: a
    failure to create the destination is caught and only warned about, and
    a failure of the transfer becomes the message. *)
Theorem copy_files_to_server_returns S file_paths c :
  raises_exceptions_only S ->
  exists ok message, (copy_files_to_server S file_paths c).2 = Done ok message.
Proof.
  intros Hexc. unfold copy_files_to_server.
  destruct (cfg_create_destination c); [|apply transfer_caught, Hexc].
  pose proof (create_destination_caught S c [] Hexc) as Hmk.
  destruct (create_destination S c []) as [history [e|]]; [discriminate|].
  apply transfer_caught, Hexc.
Qed.

(** X10. [copy_files_to_server] reports success only with its fixed message and
    only when the last command it ran is the [scp] command, wrapped in
    [sshpass] when a password is needed, and that command exited with
    status 0; the arguments of [scp] end with the selected paths in their
    order and the remote destination. *)
Theorem copy_files_to_server_success S file_paths c message :
  (copy_files_to_server S file_paths c).2 = Done true message ->
  message = lit "Files copied successfully!"
  /\ (exists before stderr,
        (copy_files_to_server S file_paths c).1
        = before ++ [transfer_cmd S file_paths c]
        /\ run S before (transfer_cmd S file_paths c) = Exited 0 stderr)
  /\ file_paths ++ [login (cfg_host c) ++ lit ":" ++ cfg_destination c]
     `suffix_of` transfer_cmd S file_paths c.
Proof.
  intros Hok.
  assert (file_paths ++ [login (cfg_host c) ++ lit ":" ++ cfg_destination c]
          `suffix_of` transfer_cmd S file_paths c) as Hsuffix.
  { unfold transfer_cmd, with_sshpass, scp_cmd, remote_dest.
    destruct (password_needed S c); rewrite ?app_assoc;
      repeat rewrite <- (app_assoc _ file_paths); eexists; reflexivity. }
  revert Hok. unfold copy_files_to_server.
  destruct (cfg_create_destination c).
  - destruct (create_destination S c []) as [history [e|]]; [discriminate|].
    intros [Hm Hrun]%transfer_success. auto.
  - intros [Hm Hrun]%transfer_success. auto.
Qed.

Lemma copy_files_to_server_returns_witness :
  exists ok message,
    (copy_files_to_server (obliging true) [lit "/tmp/a.txt"]
       (sample_config (Some (lit "secret")))).2 = Done ok message.
Proof.
  apply (copy_files_to_server_returns (obliging true) [lit "/tmp/a.txt"]
           (sample_config (Some (lit "secret")))).
  intros history cmd e message H. discriminate H.
Defined.

Lemma copy_files_to_server_success_witness :
  lit "Files copied successfully!" = lit "Files copied successfully!"
  /\ (exists before stderr,
        (copy_files_to_server (obliging true) [lit "/tmp/a.txt"]
           (sample_config None)).1
        = before ++ [transfer_cmd (obliging true) [lit "/tmp/a.txt"]
                       (sample_config None)]
        /\ run (obliging true) before
             (transfer_cmd (obliging true) [lit "/tmp/a.txt"] (sample_config None))
           = Exited 0 stderr)
  /\ [lit "/tmp/a.txt"] ++ [lit "bob@10.0.0.1:~/in/"]
     `suffix_of` transfer_cmd (obliging true) [lit "/tmp/a.txt"]
                   (sample_config None).
Proof.
  apply (copy_files_to_server_success (obliging true) [lit "/tmp/a.txt"]
           (sample_config None) (lit "Files copied successfully!")).
  reflexivity.
Defined.

(** X11. When no password is given, or the identity file of the host exists
    locally, [copy_files_to_server] neither looks for [sshpass] nor uses it,
    so a password typed next to a usable key never reaches a command line.
    It runs the [mkdir] command, if asked to create the destination, and
    then the [scp] command, whether or not the [mkdir] succeeded. *)
Theorem copy_files_to_server_without_password S file_paths c :
  truthy_opt (cfg_password c) = false
  \/ identity_usable (file_exists S) (cfg_host c) = true ->
  raises_exceptions_only S ->
  (copy_files_to_server S file_paths c).1
  = (if cfg_create_destination c then [mkdir_cmd S c] else [])
    ++ [scp_cmd S file_paths c].
Proof.
  intros Hno Hexc.
  assert (password_needed S c = false) as Hneed.
  { unfold password_needed. destruct Hno as [-> | ->]; [reflexivity|].
    apply andb_false_r. }
  unfold copy_files_to_server.
  destruct (cfg_create_destination c).
  - pose proof (create_destination_caught S c [] Hexc) as Hcaught.
    revert Hcaught. unfold create_destination, transfer. rewrite Hneed.
    cbn [fst snd app]. intros ->. reflexivity.
  - unfold transfer. rewrite Hneed. reflexivity.
Qed.

Lemma copy_files_to_server_without_password_witness :
  (copy_files_to_server (obliging true) [lit "/tmp/a.txt"]
     (sample_config (Some (lit "secret")))).1
  = [mkdir_cmd (obliging true) (sample_config (Some (lit "secret")));
     scp_cmd (obliging true) [lit "/tmp/a.txt"]
       (sample_config (Some (lit "secret")))].
Proof.
  apply (copy_files_to_server_without_password (obliging true) [lit "/tmp/a.txt"]
           (sample_config (Some (lit "secret")))).
  - right. reflexivity.
  - intros history cmd e message H. discriminate H.
Defined.

(** X12. When a password is needed and [which sshpass] does not exit with status
    0, [copy_files_to_server] never runs [scp]: it returns failure with the
    hint to install [sshpass]. If it was asked to create the destination it
    has run the [mkdir] command before, without [sshpass]. *)
Theorem copy_files_to_server_sshpass_missing S file_paths c :
  password_needed S c = true ->
  raises_exceptions_only S ->
  (forall history, exists returncode stderr,
      run S history which_sshpass = Exited returncode stderr
      /\ returncode <> 0%Z) ->
  copy_files_to_server S file_paths c
  = ((if cfg_create_destination c then [which_sshpass; mkdir_cmd S c] else [])
     ++ [which_sshpass],
     Done false sshpass_missing).
Proof.
  intros Hneed Hexc Hwhich.
  assert (forall history,
            transfer S file_paths c history
            = (history ++ [which_sshpass], Done false sshpass_missing)) as Htransfer.
  { intros history. unfold transfer. rewrite Hneed.
    destruct (Hwhich history) as (rc & err & -> & Hrc).
    apply Z.eqb_neq in Hrc. rewrite Hrc. reflexivity. }
  unfold copy_files_to_server.
  destruct (cfg_create_destination c); [|apply Htransfer].
  pose proof (create_destination_caught S c [] Hexc) as Hcaught.
  revert Hcaught. unfold create_destination. rewrite Hneed.
  destruct (Hwhich []) as (rc & err & -> & Hrc).
  apply Z.eqb_neq in Hrc. rewrite Hrc. cbn [fst snd app]. intros ->.
  apply Htransfer.
Qed.

Lemma copy_files_to_server_sshpass_missing_witness :
  copy_files_to_server without_sshpass [lit "/tmp/a.txt"]
    (sample_config (Some (lit "secret")))
  = ([which_sshpass;
      mkdir_cmd without_sshpass (sample_config (Some (lit "secret")));
      which_sshpass],
     Done false sshpass_missing).
Proof.
  apply (copy_files_to_server_sshpass_missing without_sshpass [lit "/tmp/a.txt"]
           (sample_config (Some (lit "secret")))).
  - reflexivity.
  - intros history cmd e message. unfold without_sshpass. cbn [run].
    destruct (bool_decide _); discriminate.
  - intros history. exists 1%Z, []. split; [reflexivity|discriminate].
Defined.

End Copying.

(** ** The home-directory cache *)

Section HomeCache.

Implicit Types (E : env) (st : dialog) (s p q home : str) (P : N -> bool).

Lemma lstrip_by_head P s x r : lstrip_by P s = x :: r -> P x = false.
Proof.
  induction s as [|y s IH]; cbn [lstrip_by]; [discriminate|].
  destruct (P y) eqn:Hy; [exact IH|]. intros [= <- _]. exact Hy.
Qed.

Lemma lstrip_by_fixed P s : (forall x, head s = Some x -> P x = false) -> lstrip_by P s = s.
Proof.
  destruct s as [|y s]; [reflexivity|]. intros H. cbn [lstrip_by].
  rewrite (H y eq_refl). reflexivity.
Qed.

Lemma rstrip_by_head P s x : head (rstrip_by P s) = Some x -> head s = Some x.
Proof.
  destruct s as [|y s]; [discriminate|]. cbn [rstrip_by].
  destruct (rstrip_by P s); [destruct (P y)|]; cbn [head]; congruence.
Qed.

Lemma rstrip_by_idem P s : rstrip_by P (rstrip_by P s) = rstrip_by P s.
Proof. apply rstrip_by_fixed. intros c. apply rstrip_by_last. Qed.

Lemma strip_idem s : strip (strip s) = strip s.
Proof.
  unfold strip. rewrite (lstrip_by_fixed isspace (rstrip_by _ _)).
  - apply rstrip_by_idem.
  - intros x Hx%rstrip_by_head.
    destruct (lstrip_by isspace s) as [|y r] eqn:Hl; [discriminate|].
    injection Hx as <-. exact (lstrip_by_head _ _ _ _ Hl).
Qed.

Lemma rstrip_by_snoc P s c : P c = true -> rstrip_by P (s ++ [c]) = rstrip_by P s.
Proof.
  intros Hc. induction s as [|x s IH]; cbn [app rstrip_by]; [rewrite Hc; reflexivity|].
  rewrite IH. reflexivity.
Qed.

Lemma rstrip_snoc q : last q <> Some sep -> rstrip (q ++ lit "/") (lit "/") = q.
Proof.
  intros Hq. unfold rstrip. rewrite lit_sep, rstrip_by_snoc by reflexivity.
  apply rstrip_by_fixed. intros c Hc. rewrite <- lit_sep, (mem_sep c).
  destruct (N.eqb_spec c sep) as [->|]; [contradiction|reflexivity].
Qed.

Lemma tilde_drop_last home q :
  last q <> Some sep -> last (lit "~" ++ drop (length home) q) <> Some sep.
Proof.
  intros Hq. rewrite lit_tilde. cbn [app]. rewrite last_cons.
  destruct (last (drop (length home) q)) as [c|] eqn:Hl; [|discriminate].
  apply last_drop in Hl. congruence.
Qed.

(** X13. [fetch_remote_home] gives [None] for every failure of the remote call,
    and otherwise a non-empty string without white space around it, the
    output of the command stripped. *)
Theorem fetch_remote_home_result E st :
  (forall h,
     selected_host st = Some h ->
     listing_failed (subprocess_run E (ssh_prefix E h ++ [lit "echo $HOME"])) = true ->
     fetch_remote_home E st = None)
  /\ (selected_host st = None -> fetch_remote_home E st = None)
  /\ (forall home,
        fetch_remote_home E st = Some home ->
        home <> [] /\ strip home = home
        /\ exists h stdout,
             selected_host st = Some h
             /\ subprocess_run E (ssh_prefix E h ++ [lit "echo $HOME"])
                = CompletedProcess 0 stdout
             /\ home = strip stdout).
Proof.
  unfold fetch_remote_home. split; [|split].
  - intros h -> Hfail. destruct (subprocess_run E _) as [rc out|e]; [|reflexivity].
    simpl in Hfail. rewrite <- negb_andb in Hfail. apply negb_true_iff in Hfail.
    rewrite Hfail. reflexivity.
  - intros ->. reflexivity.
  - intros home. destruct (selected_host st) as [h|]; [|discriminate].
    destruct (subprocess_run E _) as [rc out|e] eqn:Hrun; [|discriminate].
    destruct (Z.eqb_spec rc 0) as [->|]; cbn [andb]; [|discriminate].
    destruct (truthy (strip out)) eqn:Ht; [|discriminate]. intros [= <-].
    split; [apply truthy_true, Ht|]. split; [apply strip_idem|eauto].
Qed.

Lemma fetch_remote_home_result_witness :
  lit "/home/alice" <> [] /\ strip (lit "/home/alice") = lit "/home/alice".
Proof.
  destruct (fetch_remote_home_result
              (answering 0 (unlines [lit "/home/alice"]))
              (sample_dialog None (lit "~/") [])) as (_ & _ & H).
  destruct (H (lit "/home/alice") eq_refl) as (H1 & H2 & _).
  split; [exact H1|exact H2].
Defined.

Lemma home_replacement_idem home p :
  home_replacement home (home_replacement home p) = home_replacement home p.
Proof.
  unfold home_replacement.
  pose proof (rstrip_last p) as Hq. set (q := rstrip p (lit "/")) in *.
  destruct (startswith q (lit "~")) eqn:Ht.
  - rewrite (rstrip_snoc _ Hq), Ht. reflexivity.
  - destruct (startswith q home) eqn:Hh.
    + rewrite (rstrip_snoc _ (tilde_drop_last home q Hq)).
      rewrite (startswith_app _ (lit "~")). reflexivity.
    + rewrite (rstrip_snoc _ Hq), Ht, Hh. reflexivity.
Qed.

Lemma apply_home_replacement_active st home :
  remote_home st = Some home -> truthy home = true ->
  destination_paths st <> [] ->
  apply_home_replacement_to_paths st
  = Dialog (selected_host st) (Some home)
           (home_replacement home <$> destination_paths st)
           (home_replaced_text home (dest_var st))
           (home_replacement home <$> destination_paths st).
Proof.
  intros Hhome Ht Hps. unfold apply_home_replacement_to_paths, home_replaced_text.
  rewrite Hhome, Ht. destruct (destination_paths st) as [|p0 ps]; [congruence|].
  cbn [set_paths dest_var]. destruct (_ && _ && _).
  - unfold set_dest_var, set_paths.
    cbn [selected_host remote_home destination_paths dest_var dest_combo_values].
    rewrite Hhome. reflexivity.
  - unfold set_paths. rewrite Hhome. reflexivity.
Qed.

Lemma apply_home_replacement_idle st :
  truthy_opt (remote_home st) = false \/ destination_paths st = [] ->
  apply_home_replacement_to_paths st = st.
Proof.
  unfold apply_home_replacement_to_paths.
  destruct (remote_home st) as [home|]; [|reflexivity].
  destruct (destination_paths st) as [|p0 ps]; [reflexivity|].
  intros [Ht|Hnil]; [|discriminate]. cbn in Ht. rewrite Ht. reflexivity.
Qed.

Lemma home_replaced_text_idem home current :
  home_replaced_text home (home_replaced_text home current)
  = home_replaced_text home current.
Proof.
  unfold home_replaced_text.
  destruct (truthy current && negb (startswith current (lit "~"))
            && startswith current home) eqn:Hc.
  - rewrite (startswith_app _ (lit "~")). cbn [negb].
    rewrite andb_false_r. reflexivity.
  - rewrite Hc. reflexivity.
Qed.

(** X14. [apply_home_replacement_to_paths] keeps the number of the
    stored paths and is idempotent: running it a second time, as happens
    when the home directory is fetched again, changes nothing more. *)
Theorem apply_home_replacement_idempotent st :
  apply_home_replacement_to_paths (apply_home_replacement_to_paths st)
  = apply_home_replacement_to_paths st
  /\ length (destination_paths (apply_home_replacement_to_paths st))
     = length (destination_paths st)
  /\ remote_home (apply_home_replacement_to_paths st) = remote_home st
  /\ selected_host (apply_home_replacement_to_paths st) = selected_host st.
Proof.
  assert (apply_home_replacement_to_paths st = st ->
          apply_home_replacement_to_paths (apply_home_replacement_to_paths st)
          = apply_home_replacement_to_paths st
          /\ length (destination_paths (apply_home_replacement_to_paths st))
             = length (destination_paths st)
          /\ remote_home (apply_home_replacement_to_paths st) = remote_home st
          /\ selected_host (apply_home_replacement_to_paths st) = selected_host st)
    as Hidle.
  { intros H. rewrite !H. repeat split. }
  destruct (truthy_opt (remote_home st)) eqn:Ht.
  2:{ apply Hidle, apply_home_replacement_idle. left. exact Ht. }
  destruct (decide (destination_paths st = [])) as [Hnil|Hne].
  { apply Hidle, apply_home_replacement_idle. right. exact Hnil. }
  clear Hidle.
  destruct (remote_home st) as [home|] eqn:Hhome; [|discriminate]. cbn in Ht.
  rewrite (apply_home_replacement_active st home Hhome Ht Hne).
  split; [|split; [|split]]; cbn [destination_paths remote_home selected_host];
    [|rewrite length_fmap; reflexivity|reflexivity|reflexivity].
  rewrite (apply_home_replacement_active _ home);
    cbn [destination_paths remote_home selected_host dest_var dest_combo_values].
  - rewrite home_replaced_text_idem, <- list_fmap_compose.
    rewrite (list_fmap_ext (home_replacement home ∘ home_replacement home)
               (home_replacement home) (destination_paths st)); [reflexivity|].
    intros i p _. apply home_replacement_idem.
  - reflexivity.
  - exact Ht.
  - destruct (destination_paths st); [congruence|discriminate].
Qed.

Lemma apply_home_replacement_idempotent_witness :
  apply_home_replacement_to_paths
    (apply_home_replacement_to_paths
       (sample_dialog (Some (lit "/home/alice")) (lit "/home/alice/d")
          [lit "/home/alice/docs//"; lit "/srv/"]))
  = sample_dialog (Some (lit "/home/alice")) (lit "~/d") [lit "~/docs/"; lit "/srv/"].
Proof.
  destruct (apply_home_replacement_idempotent
              (sample_dialog (Some (lit "/home/alice")) (lit "/home/alice/d")
                 [lit "/home/alice/docs//"; lit "/srv/"])) as [H _].
  rewrite H. reflexivity.
Defined.

Lemma late_line using_tilde remote_home home line :
  truthy_opt remote_home = false ->
  home <> [] -> startswith home (lit "~") = false ->
  home_replacement home <$> filter_line using_tilde remote_home line
  = filter_line true (Some home) line.
Proof.
  intros Hunset Hhome Hnt.
  rewrite (filter_line_kept _ _ _ (rewrites_unset using_tilde _ line Hunset)).
  destruct (truthy (bare line)) eqn:Hb.
  2:{ rewrite filter_line_kept; [rewrite Hb; reflexivity|].
      unfold rewrites. rewrite Hb. reflexivity. }
  cbn [fmap option_fmap option_map]. unfold home_replacement.
  rewrite (rstrip_snoc (bare line)) by apply rstrip_last.
  destruct (startswith (bare line) (lit "~")) eqn:Ht.
  - rewrite filter_line_kept; [rewrite Hb; reflexivity|].
    unfold rewrites. rewrite <- andb_assoc.
    rewrite (startswith_tilde_mismatch _ _ Ht Hnt). apply andb_false_r.
  - destruct (startswith (bare line) home) eqn:Hh.
    + rewrite filter_line_rewritten; [rewrite <- app_assoc; reflexivity|].
      unfold rewrites. rewrite Hb, Hh. apply truthy_true in Hhome.
      rewrite Hhome. reflexivity.
    + rewrite filter_line_kept; [rewrite Hb; reflexivity|].
      unfold rewrites. rewrite Hh. apply andb_false_r.
Qed.

Lemma omap_remote_line using_tilde remote_home (lines : list str) :
  omap (remote_line using_tilde remote_home) lines
  = omap (filter_line using_tilde remote_home) lines.
Proof.
  apply list_omap_ext, Forall2_same_length_lookup_2; [reflexivity|].
  intros i x y Hx Hy. rewrite Hx in Hy. injection Hy as <-.
  apply remote_line_filter_line.
Qed.

Lemma late_lines using_tilde remote_home home (lines : list str) :
  truthy_opt remote_home = false ->
  home <> [] -> startswith home (lit "~") = false ->
  home_replacement home <$> omap (filter_line using_tilde remote_home) lines
  = omap (filter_line true (Some home)) lines.
Proof.
  intros Hunset Hhome Hnt. induction lines as [|line lines IH]; [reflexivity|].
  cbn [omap list_omap].
  rewrite <- (late_line using_tilde remote_home home line Hunset Hhome Hnt).
  fold (omap (filter_line using_tilde remote_home) lines).
  fold (omap (filter_line true (Some home)) lines).
  destruct (filter_line using_tilde remote_home line);
    cbn [fmap option_fmap option_map list_fmap]; rewrite <- IH; reflexivity.
Qed.

(** X15. A listing of a home-relative query that came back before the home
    directory was known is brought up to date by the replacement: applied to
    its candidates, [apply_home_replacement_to_paths] gives exactly the
    candidates the same listing gives once the home directory is cached, for
    a home directory that does not itself start with '~'. *)
Theorem late_home_catches_up E st home dir_path prefix remote_path :
  truthy_opt (remote_home st) = false ->
  home <> [] -> startswith home (lit "~") = false ->
  (startswith remote_path (lit "~/") = true ->
   home_replacement home <$> candidates (fetch_remote_paths E st remote_path)
   = candidates (fetch_remote_paths E (set_remote_home st (Some home)) remote_path))
  /\ (startswith (dest_var st) (lit "~/") = true ->
      home_replacement home
        <$> candidates (fetch_and_filter_paths E st dir_path prefix)
      = candidates (fetch_and_filter_paths E (set_remote_home st (Some home))
                      dir_path prefix))
  /\ (forall st',
        remote_home st' = Some home ->
        candidates (fetch_remote_paths E st remote_path) <> [] ->
        destination_paths
          (apply_home_replacement_to_paths
             (settle (fetch_remote_paths E st remote_path) st'))
        = home_replacement home <$> candidates (fetch_remote_paths E st remote_path)).
Proof.
  intros Hunset Hhome Hnt. split; [|split]; [intros Hut|intros Hut|].
  3:{ intros st' Hst' Hne.
      destruct (fetch_remote_queue E st remote_path)
        as [[pr Hq]|[[paths Hq]|[e Hq]]]; rewrite Hq in *; cbn in Hne;
        try congruence.
      cbn [settle deliver candidates]. destruct paths as [|p0 ps]; [congruence|].
      cbn [update_destination_values].
      rewrite (apply_home_replacement_active _ home); [reflexivity| | |];
        [exact Hst'|apply truthy_true, Hhome|discriminate]. }
  - unfold fetch_remote_paths. cbn [set_remote_home selected_host remote_home].
    destruct (selected_host st) as [h|]; [|reflexivity]. rewrite Hut.
    destruct (subprocess_run E _) as [rc out|e];
      [|destruct (is_Exception e); reflexivity].
    destruct (_ && _); [|reflexivity]. cbn [candidates].
    rewrite !omap_remote_line. apply late_lines; assumption.
  - unfold fetch_and_filter_paths. cbn [set_remote_home selected_host remote_home dest_var].
    destruct (selected_host st) as [h|]; [|reflexivity]. rewrite Hut.
    destruct (subprocess_run E _) as [rc out|e];
      [|destruct (is_Exception e); reflexivity].
    destruct (_ && _); [|reflexivity].
    rewrite <- (late_lines true (remote_home st) home _ Hunset Hhome Hnt).
    destruct (omap (filter_line true (remote_home st)) _); reflexivity.
Qed.

Lemma late_home_catches_up_witness :
  home_replacement (lit "/home/alice")
    <$> candidates
          (fetch_remote_paths (answering 0 (unlines [lit "/home/alice/docs//"; lit "/srv//"]))
             (sample_dialog None (lit "~/") []) (lit "~/"))
  = candidates
      (fetch_remote_paths (answering 0 (unlines [lit "/home/alice/docs//"; lit "/srv//"]))
         (set_remote_home (sample_dialog None (lit "~/") [])
            (Some (lit "/home/alice")))
         (lit "~/")).
Proof.
  destruct (late_home_catches_up
              (answering 0 (unlines [lit "/home/alice/docs//"; lit "/srv//"]))
              (sample_dialog None (lit "~/") []) (lit "/home/alice")
              (lit "~/") [] (lit "~/")) as [H _];
    [reflexivity|discriminate|reflexivity|].
  apply H. reflexivity.
Defined.

(** X16. [os.path.expanduser] leaves a path without leading tilde as it is and
    puts the home directory of the user, without its trailing separators,
    in place of the tilde of "~/...": the import directory of add_to_music.py
    is [MUSIC_IMPORT_DIR] of that home directory, and an identity file
    "~/.ssh/key" of the SSH configuration lies under it. *)
Theorem expanduser_home (U : users) home rest path :
  own_home U = Some home ->
  os_path_expanduser U (lit "~/" ++ rest) = rstrip home (lit "/") ++ lit "/" ++ rest
  /\ os_path_expanduser U
       (lit "~/Music/Music/Media.localized/Automatically Add to Music.localized")
     = MUSIC_IMPORT_DIR home
  /\ (startswith path (lit "~") = false -> os_path_expanduser U path = path).
Proof.
  intros Hown.
  assert (forall r, os_path_expanduser U (lit "~/" ++ r)
                    = rstrip home (lit "/") ++ lit "/" ++ r) as Hexp.
  { intros r. unfold os_path_expanduser.
    assert (startswith (lit "~/" ++ r) (lit "~") = true) as H1 by reflexivity.
    assert (find_char_from (lit "~/" ++ r) sep 1 = Some 1%nat) as H2
      by reflexivity.
    assert (drop 1 (lit "~/" ++ r) = lit "/" ++ r) as H3 by reflexivity.
    rewrite H1, H2. cbn [negb].
    change (default (length (lit "~/" ++ r)) (Some 1%nat)) with 1%nat.
    change (1 =? 1)%nat with true. cbv iota. rewrite Hown, H3.
    destruct (rstrip home (lit "/")); reflexivity. }
  split; [apply Hexp|]. split.
  - exact (Hexp (lit "Music/Music/Media.localized/Automatically Add to Music.localized")).
  - intros Hp. unfold os_path_expanduser. rewrite Hp. reflexivity.
Qed.

Lemma expanduser_home_witness :
  os_path_expanduser (Users (Some (lit "/Users/a/")) (fun _ => None))
    (lit "~/" ++ lit ".ssh/key")
  = rstrip (lit "/Users/a/") (lit "/") ++ lit "/" ++ lit ".ssh/key".
Proof.
  apply (expanduser_home (Users (Some (lit "/Users/a/")) (fun _ => None))
           (lit "/Users/a/") (lit ".ssh/key") []).
  reflexivity.
Defined.

End HomeCache.

(** ** The list of source files *)

Section SourceListFacts.

Implicit Types (isdir : str -> bool) (local_home path : str)
  (file_paths : list str) (t : tally).

Lemma tally_fold isdir local_home file_paths t :
  let t' := foldl (add_path isdir local_home) t file_paths in
  dirs_counted t'
  = (dirs_counted t + length (filter (fun p => isdir p = true) file_paths))%nat
  /\ (files_counted t' + dirs_counted t'
      = files_counted t + dirs_counted t + length file_paths)%nat
  /\ (rows t').*2 = (rows t).*2 ++ (display_path local_home <$> file_paths)
  /\ (forall n, (max_width t' <= n)%nat
                <-> (max_width t <= n)%nat
                    /\ Forall (fun p => (length (display_path local_home p) * 7 <= n)%nat)
                              file_paths)
  /\ (forall n, (max_display_length t' <= n)%nat
                <-> (max_display_length t <= n)%nat
                    /\ Forall (fun p => (length (display_path local_home p) <= n)%nat)
                              file_paths).
Proof.
  revert t. induction file_paths as [|path file_paths IH]; intros t.
  - cbn. rewrite app_nil_r. repeat split; try lia; try tauto; constructor.
  - cbn [foldl]. specialize (IH (add_path isdir local_home t path)).
    cbv zeta in IH. destruct IH as (Hd & Hsum & Hrows & Hw & Hl).
    cbv zeta. set (t1 := add_path isdir local_home t path) in *.
    assert (dirs_counted t1
            = if isdir path then S (dirs_counted t) else dirs_counted t)
      as Hd1 by reflexivity.
    assert (files_counted t1
            = if isdir path then files_counted t else S (files_counted t))
      as Hf1 by reflexivity.
    assert ((rows t1).*2 = (rows t).*2 ++ [display_path local_home path])
      as Hr1 by (unfold t1, add_path; cbn [rows]; rewrite fmap_app; reflexivity).
    assert (max_width t1
            = Nat.max (max_width t) (length (display_path local_home path) * 7))
      as Hw1 by reflexivity.
    assert (max_display_length t1
            = Nat.max (max_display_length t) (length (display_path local_home path)))
      as Hl1 by reflexivity.
    clearbody t1.
    split; [|split; [|split; [|split]]].
    + rewrite Hd, Hd1, filter_cons. destruct (isdir path).
      * rewrite decide_True by reflexivity. cbn [length]. lia.
      * rewrite decide_False by discriminate. lia.
    + rewrite Hsum, Hd1, Hf1. cbn [length]. destruct (isdir path); lia.
    + rewrite Hrows, Hr1. cbn [fmap list_fmap].
      rewrite <- app_assoc. reflexivity.
    + intros n. rewrite Hw, Forall_cons. split.
      * intros [Hmax Hall]. split; [lia|]. split; [lia|exact Hall].
      * intros [Hmax [Hp Hall]]. split; [lia|exact Hall].
    + intros n. rewrite Hl, Forall_cons. split.
      * intros [Hmax Hall]. split; [lia|]. split; [lia|exact Hall].
      * intros [Hmax [Hp Hall]]. split; [lia|exact Hall].
Qed.

Lemma join_cons_nonempty (separator head_part : str) (parts : list str) :
  head_part <> [] -> join separator (head_part :: parts) <> [].
Proof.
  intros Hne. cbn [join]. destruct parts; [exact Hne|].
  destruct head_part; [congruence|discriminate].
Qed.

Lemma summary_text_empty (file_count dir_count : nat) :
  summary_text file_count dir_count = []
  <-> file_count = O /\ dir_count = O.
Proof.
  unfold summary_text. split.
  - destruct file_count as [|f]; cbn [Nat.ltb Nat.leb app].
    + destruct dir_count as [|d]; [auto|]. cbn [Nat.ltb Nat.leb app].
      intros H. exfalso. revert H. apply join_cons_nonempty.
      intros H. apply (f_equal length) in H. rewrite !length_app in H.
      cbn in H. lia.
    + intros H. exfalso. revert H. apply join_cons_nonempty.
      intros H. apply (f_equal length) in H. rewrite !length_app in H.
      cbn in H. lia.
  - intros [-> ->]. reflexivity.
Qed.

(** X17. [set_file_paths] shows one row per path, in order, with the local home
    directory abbreviated; files and directories together are as many as
    the paths; the path column is between 400 and 2000 wide; the horizontal
    scrollbar is shown exactly when some shown path is longer than 63
    characters; and the summary is empty only for an empty selection. *)
Theorem set_file_paths_view isdir local_home file_paths :
  (shown_rows (set_file_paths isdir local_home file_paths)).*2
  = display_path local_home <$> file_paths
  /\ summary (set_file_paths isdir local_home file_paths)
     = summary_text
         (length file_paths - length (filter (fun p => isdir p = true) file_paths))
         (length (filter (fun p => isdir p = true) file_paths))
  /\ (400 <= column_width (set_file_paths isdir local_home file_paths) <= 2000)%nat
  /\ (h_scrollbar (set_file_paths isdir local_home file_paths) = true
      <-> Exists (fun p => (63 < length (display_path local_home p))%nat) file_paths)
  /\ (summary (set_file_paths isdir local_home file_paths) = []
      <-> file_paths = []).
Proof.
  unfold set_file_paths, tally_paths.
  pose proof (tally_fold isdir local_home file_paths (Tally 0 0 400 0 [])) as H.
  cbv zeta in H. cbn [dirs_counted files_counted rows max_width max_display_length] in H.
  destruct H as (Hd & Hsum & Hrows & Hw & Hl).
  set (t := foldl (add_path isdir local_home) _ file_paths) in *.
  cbn [shown_rows summary column_width h_scrollbar].
  pose proof (length_filter (fun p : str => isdir p = true) file_paths) as Hlen.
  assert (files_counted t
          = length file_paths - length (filter (fun p => isdir p = true) file_paths))%nat
    as Hf by lia.
  split; [exact Hrows|]. split; [rewrite Hf, Hd; reflexivity|].
  split; [|split].
  - split; [|lia]. destruct (Nat.le_gt_cases 400 (max_width t)) as [Hge|Hlt]; [lia|].
    assert (max_width t <= 399)%nat as Hle by lia.
    apply Hw in Hle as [Hle _]. lia.
  - rewrite Nat.ltb_lt. split.
    + intros Hlong.
      destruct (decide (Exists (fun p => (63 < length (display_path local_home p))%nat)
                               file_paths)) as [Hex|Hnex]; [exact Hex|].
      assert (max_display_length t <= 63)%nat as Hle; [|lia].
      apply Hl. split; [lia|]. apply Forall_forall. intros p Hp.
      destruct (Nat.le_gt_cases (length (display_path local_home p)) 63)
        as [Hshort|Hlong']; [exact Hshort|].
      exfalso. apply Hnex, Exists_exists. eauto.
    + intros Hex. destruct (Nat.le_gt_cases (max_display_length t) 63) as [Hle|]; [|lia].
      apply Hl in Hle as [_ Hall]. apply Exists_exists in Hex as (p & Hp & Hlong).
      rewrite Forall_forall in Hall. specialize (Hall p Hp). lia.
  - rewrite summary_text_empty, Hd. split.
    + intros [H1 H2]. destruct file_paths; [reflexivity|]. cbn [length] in *. lia.
    + intros ->. cbn in *. lia.
Qed.

End SourceListFacts.

(** ** Confirmation, lookup and batch of add_to_music.py *)

Section MusicFlowFacts.

Implicit Types (run : dialog_run) (fs : filesystem) (A : answers)
  (service : nat -> lookup).

Lemma show_editable_boolean run title artist album date action metadata :
  show_editable_metadata_dialog run title artist album date
  = Some (action, metadata) ->
  exists b, action = VBool b.
Proof.
  unfold show_editable_metadata_dialog.
  destruct run as [u|[line|]]; [|destruct (bool_decide _)|discriminate].
  - destruct (show u) as [a m]. destruct (equals_str _ _); intros [= <- _]; eauto.
  - intros [= <- _]. eauto.
  - intros [= <- _]. eauto.
Qed.

(** X18. [show_confirmation_dialog] compares what
    [show_editable_metadata_dialog] returned, a boolean, with the strings
    'import' and 'retry': whatever the user does it answers
    [(False, None)], also when the dialog below reported an import. So
    [process_audio_file] takes every file as cancelled: it returns [False]
    and leaves the file system as it is. *)
Theorem confirmation_never_given run title artist album date confirmation :
  show_confirmation_dialog run title artist album date = Some confirmation ->
  confirmation = (VBool false, None)
  /\ (forall userhome retag move_raises fuel fs file_path,
        process_audio_file userhome (answers_of confirmation retag move_raises)
          fuel fs file_path
        = Finished false fs)
  /\ (forall t a al d,
        show_editable_metadata_dialog (shown (clicks_import t a al d))
          title artist album date
        = Some (VBool true, Some (get_metadata t a al d))).
Proof.
  intros Hconf.
  assert (confirmation = (VBool false, None)) as ->.
  { revert Hconf. unfold show_confirmation_dialog.
    destruct (show_editable_metadata_dialog run title artist album date)
      as [[action metadata]|] eqn:Hed; [|discriminate].
    destruct (show_editable_boolean _ _ _ _ _ _ _ Hed) as [b ->].
    cbn. intros [= <-]. reflexivity. }
  split; [reflexivity|]. split; [|reflexivity].
  intros userhome retag move_raises fuel fs file_path.
  unfold process_audio_file, answers_of. cbn [user_confirmed value_truthy fst negb].
  destruct (fs !! file_path) as [[content|]|]; try reflexivity.
  destruct (negb (bool_decide _)); reflexivity.
Qed.

Lemma confirmation_never_given_witness :
  (VBool false, @None metadata) = (VBool false, None)
  /\ process_audio_file sample_userhome
       (answers_of (VBool false, None) (fun content => content) false) 20
       sample_files (lit "/tmp/s.mp3")
     = Finished false sample_files.
Proof.
  destruct (confirmation_never_given
              (shown (clicks_import (lit "Song") (lit "Band") [] []))
              (lit "Unknown") (lit "Unknown") (lit "Unknown") []
              (VBool false, None) eq_refl) as (H1 & H2 & _).
  split; [exact H1|apply H2].
Defined.

(** The sleeps of the retry loop double from one second on. *)
Lemma retry_from_sleeps service remaining attempt retry_delay slept :
  exists k,
    (retry_from service remaining attempt retry_delay slept).2
    = slept ++ ((fun j => retry_delay * 2 ^ j)%nat <$> seq 0 k)
    /\ (attempt + k <= Nat.max attempt (max_retries - 1))%nat
    /\ (k <= remaining)%nat
    /\ (forall j, (j < k)%nat ->
          exists message, service (attempt + j)%nat = throws message
                          /\ connection_error message = true)
    /\ (forall md,
          (retry_from service remaining attempt retry_delay slept).1 = Some md ->
          exists r, service (attempt + k)%nat = found r
                    /\ md = recording_metadata r).
Proof.
  revert attempt retry_delay slept.
  induction remaining as [|remaining IH]; intros attempt retry_delay slept.
  - exists O. cbn. rewrite app_nil_r. repeat split; try lia; try discriminate.
  - cbn [retry_from].
    destruct (service attempt) as [r|message] eqn:Hs.
    + exists O. cbn [fst snd seq fmap list_fmap]. rewrite app_nil_r, Nat.add_0_r.
      split; [reflexivity|]. split; [lia|]. split; [lia|].
      split; [intros j Hj; lia|]. intros md [= <-]. eauto.
    + destruct (connection_error message) eqn:Hc.
      * destruct (Nat.ltb_spec attempt (max_retries - 1)) as [Hlt|Hge].
        -- destruct (IH (S attempt) (retry_delay * 2)%nat (slept ++ [retry_delay]))
             as (k & Hsl & Hbound & Hk & Herr & Hfound).
           exists (S k). split; [|split; [|split; [|split]]].
           ++ rewrite Hsl, <- app_assoc. f_equal. cbn [seq fmap list_fmap app].
              f_equal; [cbn; lia|]. rewrite <- fmap_S_seq, <- list_fmap_compose.
              apply list_fmap_ext. intros i j _. cbn. lia.
           ++ lia.
           ++ lia.
           ++ intros j Hj. destruct j as [|j].
              ** rewrite Nat.add_0_r. eauto.
              ** replace (attempt + S j)%nat with (S attempt + j)%nat by lia.
                 apply Herr. lia.
           ++ intros md Hmd.
              replace (attempt + S k)%nat with (S attempt + k)%nat by lia.
              apply Hfound, Hmd.
        -- exists O. cbn [fst snd seq fmap list_fmap]. rewrite app_nil_r, Nat.add_0_r.
           split; [reflexivity|]. split; [lia|]. split; [lia|].
           split; [intros j Hj; lia|]. discriminate.
      * exists O. cbn [fst snd seq fmap list_fmap]. rewrite app_nil_r, Nat.add_0_r.
        split; [reflexivity|]. split; [lia|]. split; [lia|].
        split; [intros j Hj; lia|]. discriminate.
Qed.


End MusicFlowFacts.

(** ** Paths, directories and the batch of files *)

Section FileSystemFacts.

Implicit Types (fs : filesystem) (p d dir name : str) (c : N).

Lemma mem_take c p (n : nat) : mem c p = false -> mem c (take n p) = false.
Proof.
  intros H. rewrite <- (take_drop n p), mem_app in H.
  apply orb_false_elim in H as [H _]. exact H.
Qed.

Lemma mem_drop c p (n : nat) : mem c p = false -> mem c (drop n p) = false.
Proof.
  intros H. rewrite <- (take_drop n p), mem_app in H.
  apply orb_false_elim in H as [_ H]. exact H.
Qed.

Lemma rfind_from_none (i : Z) p c : mem c p = false -> rfind_from i p c = (-1)%Z.
Proof.
  revert i. induction p as [|x p IH]; intros i; [reflexivity|].
  unfold mem. cbn [existsb rfind_from]. intros [Hx Hp]%orb_false_elim.
  rewrite (IH (i + 1)%Z Hp). rewrite N.eqb_sym, Hx. reflexivity.
Qed.

Lemma rfind_from_last (i : Z) p name c :
  (0 <= i)%Z -> mem c name = false ->
  rfind_from i (p ++ c :: name) c = (i + Z.of_nat (length p))%Z.
Proof.
  intros Hi Hname. revert i Hi. induction p as [|x p IH]; intros i Hi.
  - cbn [app rfind_from length]. rewrite (rfind_from_none _ _ _ Hname).
    rewrite N.eqb_refl. change (0 <=? -1)%Z with false. cbv iota. lia.
  - cbn [app rfind_from length]. rewrite (IH (i + 1)%Z ltac:(lia)).
    destruct (Z.leb_spec 0 (i + 1 + Z.of_nat (length p))); lia.
Qed.

Lemma os_path_basename_plain name :
  mem sep name = false -> os_path_basename name = name.
Proof.
  intros H. unfold os_path_basename, rfind. rewrite (rfind_from_none _ _ _ H).
  reflexivity.
Qed.

Lemma os_path_basename_after p name :
  mem sep name = false -> os_path_basename (p ++ sep :: name) = name.
Proof.
  intros H. unfold os_path_basename, rfind.
  rewrite (rfind_from_last 0 p name sep ltac:(lia) H).
  replace (Z.to_nat (0 + Z.of_nat (length p) + 1)) with (length (p ++ [sep]))
    by (rewrite length_app; cbn [length]; lia).
  change (p ++ sep :: name) with (p ++ [sep] ++ name).
  rewrite app_assoc. apply drop_app_length.
Qed.

Lemma os_path_basename_no_sep p : mem sep (os_path_basename p) = false.
Proof.
  destruct (mem sep p) eqn:Hm.
  - destruct (rfind_found _ _ Hm) as (k & Hr & _ & Hafter).
    unfold os_path_basename. rewrite Hr.
    replace (Z.to_nat (Z.of_nat k + 1)) with (S k) by lia. exact Hafter.
  - rewrite (os_path_basename_plain _ Hm). exact Hm.
Qed.

Lemma os_path_basename_join dir name :
  mem sep name = false -> os_path_basename (os_path_join dir name) = name.
Proof.
  intros Hname. unfold os_path_join.
  destruct (startswith name (lit "/")) eqn:Hs.
  { rewrite lit_sep in Hs. apply startswith_mem in Hs. congruence. }
  destruct dir as [|x dir']; [apply os_path_basename_plain, Hname|].
  cbn [truthy negb orb].
  destruct (endswith (x :: dir') (lit "/")) eqn:He.
  - apply endswith_sep, last_Some in He as [front ->].
    rewrite <- app_assoc. apply os_path_basename_after, Hname.
  - rewrite lit_sep. apply os_path_basename_after, Hname.
Qed.

Lemma decimal_no_sep (n : nat) : mem sep (decimal n) = false.
Proof.
  unfold decimal. induction (Nat.to_uint n); cbn [uint_str]; [reflexivity|..];
    unfold mem in *; cbn [existsb]; rewrite IHu; reflexivity.
Qed.

(** The two parts [os.path.splitext] returns make up the path, and the
    extension is a suffix of it. *)
Lemma os_path_splitext_parts p :
  (os_path_splitext p).1 ++ (os_path_splitext p).2 = p.
Proof.
  unfold os_path_splitext. destruct (_ >? _)%Z; [|apply app_nil_r].
  destruct (existsb _ _); [apply take_drop|apply app_nil_r].
Qed.


Lemma foldr_mkdir_lookup fs (l : list str) p :
  foldr mkdir_if_absent fs l !! p
  = match fs !! p with
    | Some e => Some e
    | None => if bool_decide (p ∈ l) then Some Directory else None
    end.
Proof.
  revert p. induction l as [|d l IH]; intros p; cbn [foldr].
  - destruct (fs !! p); reflexivity.
  - unfold mkdir_if_absent at 1.
    destruct (foldr mkdir_if_absent fs l !! d) as [e|] eqn:Hd.
    + rewrite IH. destruct (fs !! p) as [e'|] eqn:Hp; [reflexivity|].
      destruct (decide (p = d)) as [->|Hne].
      * rewrite IH, Hp in Hd. rewrite (bool_decide_eq_true_2 (d ∈ d :: l)) by left.
        destruct (bool_decide (d ∈ l)); [reflexivity|discriminate].
      * rewrite (bool_decide_ext (p ∈ d :: l) (p ∈ l)); [reflexivity|].
        rewrite elem_of_cons. tauto.
    + destruct (decide (p = d)) as [->|Hne].
      * rewrite lookup_insert_eq. rewrite IH in Hd.
        destruct (fs !! d); [discriminate|].
        rewrite bool_decide_eq_true_2 by left. reflexivity.
      * rewrite lookup_insert_ne by congruence. rewrite IH.
        destruct (fs !! p); [reflexivity|].
        rewrite (bool_decide_ext (p ∈ d :: l) (p ∈ l)); [reflexivity|].
        rewrite elem_of_cons. tauto.
Qed.

(** X21. When [os.makedirs] succeeds, the directory and every ancestor on the
    way to it exist as directories, whatever existed before is unchanged,
    nothing else is created, and a second call succeeds and changes
    nothing. It raises exactly when a file stands at one of these paths. *)
Theorem os_makedirs_postcondition name fs :
  (os_makedirs name fs = None
   <-> exists d content, d ∈ lineage name /\ fs !! d = Some (File content))
  /\ forall fs1,
       os_makedirs name fs = Some fs1 ->
       fs1 !! name = Some Directory
       /\ (forall d, d ∈ lineage name -> fs1 !! d = Some Directory)
       /\ (forall p e, fs !! p = Some e -> fs1 !! p = Some e)
       /\ (forall p, p ∉ lineage name -> fs1 !! p = fs !! p)
       /\ os_makedirs name fs1 = Some fs1.
Proof.
  unfold os_makedirs.
  destruct (existsb (os_path_isfile fs) (lineage name)) eqn:Hfile.
  - split.
    + split; [intros _|reflexivity].
      apply existsb_exists in Hfile as (d & Hd%list_elem_of_In & Hisfile).
      unfold os_path_isfile in Hisfile.
      destruct (fs !! d) as [[content|]|] eqn:Hfs; try discriminate. eauto.
    + discriminate.
  - assert (forall d, d ∈ lineage name -> os_path_isfile fs d = false) as Hnofile.
    { intros d Hd. destruct (os_path_isfile fs d) eqn:Hf; [|reflexivity].
      assert (existsb (os_path_isfile fs) (lineage name) = true) as Hex
        by (apply existsb_exists; exists d; split; [apply list_elem_of_In, Hd|exact Hf]).
      congruence. }
    split.
    + split; [discriminate|]. intros (d & content & Hd & Hfs).
      specialize (Hnofile d Hd). unfold os_path_isfile in Hnofile.
      rewrite Hfs in Hnofile. discriminate.
    + intros fs1 [= <-].
      assert (forall d, d ∈ lineage name ->
                        foldr mkdir_if_absent fs (lineage name) !! d = Some Directory)
        as Hdirs.
      { intros d Hd. rewrite foldr_mkdir_lookup.
        specialize (Hnofile d Hd). unfold os_path_isfile in Hnofile.
        destruct (fs !! d) as [[content|]|]; [discriminate|reflexivity|].
        rewrite bool_decide_eq_true_2 by exact Hd. reflexivity. }
      split; [apply Hdirs; unfold lineage; apply elem_of_app; right; left|].
      split; [exact Hdirs|]. split; [|split].
      * intros p e Hp. rewrite foldr_mkdir_lookup, Hp. reflexivity.
      * intros p Hp. rewrite foldr_mkdir_lookup.
        destruct (fs !! p); [reflexivity|].
        rewrite bool_decide_eq_false_2 by exact Hp. reflexivity.
      * assert (existsb (os_path_isfile (foldr mkdir_if_absent fs (lineage name)))
                        (lineage name) = false) as ->.
        { apply not_true_is_false. intros Hex.
          apply existsb_exists in Hex as (d & Hd%list_elem_of_In & Hisfile).
          unfold os_path_isfile in Hisfile. rewrite (Hdirs d Hd) in Hisfile.
          discriminate. }
        f_equal. apply map_eq. intros p. rewrite foldr_mkdir_lookup.
        destruct (foldr mkdir_if_absent fs (lineage name) !! p) eqn:Hp;
          [reflexivity|].
        destruct (bool_decide (p ∈ lineage name)) eqn:Hin; [|reflexivity].
        apply bool_decide_eq_true in Hin. rewrite (Hdirs p Hin) in Hp. discriminate.
Qed.

Lemma os_makedirs_postcondition_witness :
  sample_files_before_move !! MUSIC_IMPORT_DIR sample_userhome = Some Directory.
Proof.
  destruct (os_makedirs_postcondition (MUSIC_IMPORT_DIR sample_userhome)
              (<[lit "/tmp/s.mp3" := File [0; 1; 2]]> sample_files)) as [_ H].
  destruct (H sample_files_before_move) as [H1 _]; [vm_compute; reflexivity|].
  exact H1.
Defined.

(** Whatever [process_audio_file] does, it touches no entry of the file
    system but the file it processes. *)
Lemma process_audio_file_keeps userhome (A : answers) fuel fs file_path ok fs' :
  process_audio_file userhome A fuel fs file_path = Finished ok fs' ->
  forall p e, p <> file_path -> fs !! p = Some e -> fs' !! p = Some e.
Proof.
  unfold process_audio_file.
  destruct (fs !! file_path) as [[content|]|] eqn:Hfile;
    try (intros [= _ <-]; auto).
  destruct (negb (bool_decide _)); [intros [= _ <-]; auto|].
  destruct (negb (user_confirmed A)); [intros [= _ <-]; auto|].
  destruct (before_move userhome A fs file_path content) as [fs1|] eqn:Hmk;
    [|discriminate].
  assert (forall p e, p <> file_path -> fs !! p = Some e -> fs1 !! p = Some e)
    as Hkeep.
  { intros p e Hne Hp. apply (os_makedirs_keeps _ _ _ _ _ Hmk).
    rewrite lookup_insert_ne by congruence. exact Hp. }
  destruct (unique_destination fuel fs1 (MUSIC_IMPORT_DIR userhome) _)
    as [destination|] eqn:Hud; [|discriminate].
  destruct (move_raises A); [intros [= _ <-]; exact Hkeep|].
  intros [= _ <-] p e Hne Hp. pose proof (Hkeep p e Hne Hp) as Hp1.
  assert (fs1 !! destination = None) as Hfree.
  { revert Hud. unfold unique_destination.
    destruct (os_path_exists fs1 _) eqn:Hex.
    - destruct (os_path_splitext _) as [base ext].
      intros [[Hfree ->]|[_ (N & _ & _ & Hfree & _)]]%while_exists_Some;
        exact Hfree.
    - intros [= <-]. apply os_path_exists_false, Hex. }
  unfold shutil_move. destruct (fs1 !! file_path); [|exact Hp1].
  rewrite lookup_insert_ne by (intros ->; congruence).
  rewrite lookup_delete_ne by congruence. exact Hp1.
Qed.

Lemma process_all_counts userhome fuel n fs (jobs : list (str * answers)) m fs' :
  process_all userhome fuel n fs jobs = processed m fs' ->
  (n <= m <= n + length jobs)%nat
  /\ (forall p e, p ∉ jobs.*1 -> fs !! p = Some e -> fs' !! p = Some e)
  /\ (Forall (fun job => user_confirmed job.2 = false) jobs -> m = n /\ fs' = fs).
Proof.
  revert n fs. induction jobs as [|[file_path A] jobs IH]; intros n fs.
  - cbn. intros [= <- <-]. split; [lia|]. split; auto.
  - cbn [process_all].
    destruct (process_audio_file userhome A fuel fs file_path) as [ok fs1| |] eqn:Hrun;
      try discriminate.
    intros Hrest. destruct (IH _ _ Hrest) as (Hcount & Hkeep & Hnone).
    split; [cbn [length]; destruct ok; lia|]. split.
    + intros p e Hp He. cbn [fmap list_fmap fst] in Hp.
      apply not_elem_of_cons in Hp as [Hne Hp].
      apply Hkeep; [exact Hp|].
      exact (process_audio_file_keeps _ _ _ _ _ _ _ Hrun p e Hne He).
    + intros Hall. apply Forall_cons in Hall as [Hno Hall]. cbn [snd] in Hno.
      assert (ok = false /\ fs1 = fs) as [-> ->].
      { revert Hrun. unfold process_audio_file. rewrite Hno. cbn [negb].
        destruct (fs !! file_path) as [[content|]|]; try (intros [= <- <-]; auto).
        destruct (negb (bool_decide _)); intros [= <- <-]; auto. }
      apply Hnone, Hall.
Qed.

(** X22. [main] of add_to_music.py counts at most one success per file, and
    whatever the files do, every entry of the file system at a path that
    is not among the arguments is still there afterwards, unchanged. When
    no file is confirmed, the count is 0 and nothing has changed at all. *)
Theorem music_main_batch userhome fuel fs (jobs : list (str * answers))
    success_count fs' :
  music_main userhome fuel fs jobs = processed success_count fs' ->
  jobs <> []
  /\ (success_count <= length jobs)%nat
  /\ (forall p e, p ∉ jobs.*1 -> fs !! p = Some e -> fs' !! p = Some e)
  /\ (Forall (fun job => user_confirmed job.2 = false) jobs ->
      success_count = O /\ fs' = fs).
Proof.
  unfold music_main. destruct jobs as [|job jobs]; [discriminate|].
  intros (Hcount & Hkeep & Hnone)%process_all_counts.
  split; [discriminate|]. split; [lia|]. split; [exact Hkeep|exact Hnone].
Qed.

Lemma music_main_batch_witness :
  (1 <= length [(lit "/tmp/s.mp3", sample_answers)])%nat.
Proof.
  destruct (music_main_batch sample_userhome 20 sample_files
              [(lit "/tmp/s.mp3", sample_answers)] 1
              (shutil_move (lit "/tmp/s.mp3")
                 (os_path_join (MUSIC_IMPORT_DIR sample_userhome) (lit "s_2.mp3"))
                 sample_files_before_move)) as (_ & H & _).
  - vm_compute. reflexivity.
  - exact H.
Defined.

End FileSystemFacts.
